(** * Gripper-Code: perception, reward and recovery logic

    Shallow embedding of the decision logic of the gripper training stack:

    - [scripts/gripper_environment.py]   (rotation task, module [Rotation])
    - [scripts/Objects.py]               (pose sources, modules [Aruco], [Magnet])
    - [scripts/environments/TranslationEnvironment.py] and
      [scripts/environments/two_finger/translation.py] (module [Translation])
    - [scripts/gripper_trainer.py]       (module [Trainer])

    Numbers that the Python code keeps in floats are idealised: rationals
    ([Q]) where the code only adds, subtracts and compares, reals ([R])
    where it takes a Euclidean norm. *)

From Stdlib Require Import ZArith QArith Qabs Bool List Ascii String DecimalString.
From Stdlib Require Import Lqa.
From Stdlib Require Import Reals Lra Lia.
From stdpp Require Import gmap list.
Import ListNotations.

(** ** The vision collaborator

    [camera.get_frame()] followed by [aruco_detector.get_marker_poses(...)]
    is one capture-and-detect round.  The outside world is the family
    [scene k] of detection results of the [k]-th captured frame; the only
    state is the number of frames captured so far. *)

Module Vision.

(** A detected marker pose: [pose[0]] / [pose["position"]] and
    [pose[1]] / [pose["orientation"]]; the yaw is component 2 of the
    orientation. *)
Record pose : Type := Pose {
  position : Q * Q * Q;
  orientation : Q * Q * Q
}.

Definition yaw_of (p : pose) : Q := snd (orientation p).

Record camera : Type := Camera { frames_captured : nat }.

(** The detections found in each captured frame, by capture index. *)
Definition scene : Type := nat -> gmap Z pose.

(** frame = camera.get_frame(); marker_poses = detector.get_marker_poses(frame, ...) *)
Definition capture (sc : scene) (c : camera) : gmap Z pose * camera :=
  (sc (frames_captured c), Camera (S (frames_captured c))).

End Vision.

(** ** scripts/gripper_environment.py *)

Module Rotation.
Import Vision.
Local Open Scope Q_scope.

(** The sentinel appended to the observation when no pose was read. *)
Definition no_yaw : Q := -1.

(** [Environment.choose_target_angle]; [r] is the draw of
    [np.random.randint(1,5)]. *)
Definition choose_target_angle (r : Z) : Q :=
  if (r =? 1)%Z then 90
  else if (r =? 2)%Z then 180
  else if (r =? 3)%Z then 270
  else if (r =? 4)%Z then 0
  else -1.

(** [Environment.reward_function] *)
Definition reward_function (target_angle : Q)
    (start_marker_pose final_marker_pose : option pose)
    (gripper_error : bool) : Q * bool :=
  match final_marker_pose with
  | None => (0, true)
  | Some final =>
    match start_marker_pose with
    | None => (0, true)
    | Some start =>
      let terminated := false in
      let valve_angle_before := yaw_of start in
      let valve_angle_after := yaw_of final in
      let angle_difference := Qabs (target_angle - valve_angle_after) in
      let delta_changes :=
        Qabs (target_angle - valve_angle_before)
        - Qabs (target_angle - valve_angle_after) in
      let reward :=
        if Qle_bool (-3) delta_changes && Qle_bool delta_changes 3
        then 0 else delta_changes in
      if Qle_bool angle_difference 3
      then (reward + 100, true)
      else (reward, terminated)
    end
  end.

Section Env.
Variable sc : scene.
(** [self.gripper.home()] and [self.gripper.move(action)]: the servo
    readings and the flag they return are outside this file. *)
Variable action : Type.
Variable gripper_home : list Q * bool.
Variable gripper_move : action -> list Q * bool.

(** State of the [while] loop of [get_marker_pose]. *)
Record detect_state : Type := DetectState {
  marker_poses : gmap Z pose;
  detect_attempts : nat;
  cam : camera
}.

(** while len(marker_poses) == 0 and detect_attempts < 4: ...
    [None] when [fuel] iterations did not finish the loop. *)
Fixpoint detect_loop (fuel : nat) (s : detect_state) : option detect_state :=
  if (size (marker_poses s) =? 0)%nat && (detect_attempts s <? 4)%nat then
    match fuel with
    | O => None
    | S fuel' =>
      let '(found, cam') := capture sc (cam s) in
      detect_loop fuel' (DetectState found (detect_attempts s + 1) cam')
    end
  else Some s.

(** [Environment.get_marker_pose] *)
Definition get_marker_pose (fuel : nat) (marker_id : Z) (c : camera)
  : option (option pose * camera) :=
  match detect_loop fuel (DetectState ∅ 0 c) with
  | None => None
  | Some s => Some (marker_poses s !! marker_id, cam s)
  end.

Record env : Type := Env { target_angle : Q; env_camera : camera }.

(** [Environment.reset]; [r] is the random draw used by
    [choose_target_angle]. *)
Definition reset (fuel : nat) (r : Z) (e : env)
  : option ((list Q * bool) * env) :=
  let '(state, terminated) := gripper_home in
  match get_marker_pose fuel 0 (env_camera e) with
  | None => None
  | Some (marker_pose, c) =>
    let marker_yaw :=
      match marker_pose with
      | None => no_yaw
      | Some p => yaw_of p
      end in
    let state := state ++ [marker_yaw] in
    Some ((state, terminated), Env (choose_target_angle r) c)
  end.

(** [Environment.step]: returns (state, reward, terminated, truncated). *)
Definition step (fuel : nat) (a : action) (e : env)
  : option ((list Q * Q * bool * bool) * env) :=
  match get_marker_pose fuel 0 (env_camera e) with
  | None => None
  | Some (start_marker_pose, c1) =>
    let '(state, gripper_error) := gripper_move a in
    match get_marker_pose fuel 0 c1 with
    | None => None
    | Some (final_marker_pose, c2) =>
      let final_marker_yaw :=
        match final_marker_pose with
        | Some p => yaw_of p
        | None => no_yaw
        end in
      let state := state ++ [final_marker_yaw] in
      let '(reward, terminated) :=
        reward_function (target_angle e) start_marker_pose
                        final_marker_pose gripper_error in
      let truncated := false in
      Some ((state, reward, terminated, truncated), Env (target_angle e) c2)
    end
  end.
End Env.

End Rotation.

(** ** scripts/Objects.py: the fiducial-marker pose source *)

Module Aruco.
Import Vision.

Section Source.
Variable sc : scene.
(** [self.object_marker_id] *)
Variable object_marker_id : Z.

(** The [while] loop of [ArucoObject.get_yaw], entered with the current
    value of [attempt]; [None] when [fuel] iterations did not finish it. *)
Fixpoint get_yaw_loop (fuel : nat) (blindable : bool) (detection_attempts : Z)
    (attempt : Z) (c : camera) : option (option Q * camera) :=
  if negb blindable || (attempt <? detection_attempts)%Z then
    match fuel with
    | O => None
    | S fuel' =>
      let attempt := (attempt + 1)%Z in
      let '(marker_poses, c') := capture sc c in
      match marker_poses !! object_marker_id with
      | Some p => Some (Some (yaw_of p), c')
      | None => get_yaw_loop fuel' blindable detection_attempts attempt c'
      end
    end
  else Some (None, c).

(** [ArucoObject.get_yaw(blindable, detection_attempts)] *)
Definition get_yaw (fuel : nat) (blindable : bool) (detection_attempts : Z)
    (c : camera) : option (option Q * camera) :=
  get_yaw_loop fuel blindable detection_attempts 0%Z c.
End Source.

End Aruco.

(** ** scripts/Objects.py: the magnetic sensor on a serial line

    A Python [bytes] value is a [string] (a list of 8-bit characters); a
    Python [str] is represented by its UTF-8 encoding, so [encode] is the
    identity and [decode] is a validity check. *)

Module Magnet.
Local Open Scope string_scope.

Inductive exn : Type := UnicodeDecodeError | ValueError | IndexError.

(** What crossed the serial line, in order. *)
Inductive io_event : Type :=
| Tx (data : string)
| Rx (line : string).

(** [rx]: the bytes the microcontroller will deliver, not yet read. *)
Record port : Type := Port { rx : string; wire : list io_event }.

(** Outcome of a call on the port: it returns, raises, never returns
    because [read_until] waits for a newline that does not come, or the
    model ran out of iterations. *)
Inductive result (A : Type) : Type :=
| Returned (a : A) (p : port)
| Raised (e : exn) (p : port)
| Blocked (p : port)
| OutOfFuel.
Arguments Returned {A} a p.
Arguments Raised {A} e p.
Arguments Blocked {A} p.
Arguments OutOfFuel {A}.

Definition io (A : Type) : Type := port -> result A.

Definition ret {A} (a : A) : io A := fun p => Returned a p.

Definition bind {A B} (m : io A) (k : A -> io B) : io B := fun p =>
  match m p with
  | Returned a p' => k a p'
  | Raised e p' => Raised e p'
  | Blocked p' => Blocked p'
  | OutOfFuel => OutOfFuel
  end.

Definition raise {A} (e : exn) : io A := fun p => Raised e p.

Notation "'let*' x ':=' m 'in' k" := (bind m (fun x => k))
  (at level 10, x pattern, m at level 100, k at level 200).

(** try: body / except (UnicodeDecodeError, ValueError): handler *)
Definition try_except {A} (body : io A) (handler : io A) : io A := fun p =>
  match body p with
  | Raised UnicodeDecodeError p' => handler p'
  | Raised ValueError p' => handler p'
  | r => r
  end.

Definition newline : ascii := "010"%char.
Definition comma : ascii := ","%char.

Definition in_range (lo hi : N) (a : ascii) : bool :=
  ((lo <=? N_of_ascii a) && (N_of_ascii a <=? hi))%N.

Definition continuation : ascii -> bool := in_range 128 191.

(** Well-formed UTF-8 (the strict decoder: no overlong forms, no
    surrogates, nothing above U+10FFFF). *)
Fixpoint utf8_valid (s : string) : bool :=
  match s with
  | EmptyString => true
  | String a s1 =>
    if in_range 0 127 a then utf8_valid s1
    else match s1 with
    | EmptyString => false
    | String b s2 =>
      if in_range 194 223 a then continuation b && utf8_valid s2
      else match s2 with
      | EmptyString => false
      | String c s3 =>
        if in_range 224 239 a then
          (if in_range 224 224 a then in_range 160 191 b
           else if in_range 237 237 a then in_range 128 159 b
           else continuation b)
          && continuation c && utf8_valid s3
        else match s3 with
        | EmptyString => false
        | String d s4 =>
          if in_range 240 244 a then
            (if in_range 240 240 a then in_range 144 191 b
             else if in_range 244 244 a then in_range 128 143 b
             else continuation b)
            && continuation c && continuation d && utf8_valid s4
          else false
        end
      end
    end
  end.

(** [bytes.decode()] *)
Definition decode (b : string) : option string :=
  if utf8_valid b then Some b else None.

(** [str.encode()] *)
Definition encode (s : string) : string := s.

(** [str.split(sep)] for a one-character separator. *)
Fixpoint split (sep : ascii) (s : string) : list string :=
  match s with
  | EmptyString => [EmptyString]
  | String a r =>
    if Ascii.eqb a sep then EmptyString :: split sep r
    else match split sep r with
         | h :: t => String a h :: t
         | [] => [String a EmptyString]
         end
  end.

(** The bytes up to and including the first newline, and what follows;
    [None] when no newline is there to be read. *)
Fixpoint take_line (s : string) : option (string * string) :=
  match s with
  | EmptyString => None
  | String a r =>
    if Ascii.eqb a newline then Some (String a EmptyString, r)
    else match take_line r with
         | Some (l, rest) => Some (String a l, rest)
         | None => None
         end
  end.

(** [self.serial.write(data)] *)
Definition serial_write (data : string) : io unit := fun p =>
  Returned tt (Port (rx p) (wire p ++ [Tx data])).

(** [self.serial.read_until(b'\n')]; the port is opened without a
    timeout, so the call waits for the newline. *)
Definition serial_read_until_newline : io string := fun p =>
  match take_line (rx p) with
  | None => Blocked p
  | Some (line, rest) => Returned line (Port rest (wire p ++ [Rx line]))
  end.

(** [response[i]] *)
Definition item (response : list string) (i : nat) : io string :=
  match nth_error response i with
  | Some x => ret x
  | None => raise IndexError
  end.

(** [Command(Enum)] and [Command.X.value] *)
Inductive Command : Type := GET_YAW | OFFSET.

Definition value (c : Command) : Z :=
  match c with GET_YAW => 0 | OFFSET => 1 end.

(** [f"{n}"] for an int. *)
Definition str_of_int (n : Z) : string := NilZero.string_of_int (Z.to_int n).

Section Sensor.
(** The builtin [float(text)]; [None] stands for [ValueError]. *)
Variable float : string -> option Q.
(** [f"{x}"] for a float. *)
Variable str_of_float : Q -> string.

Definition to_float (text : string) : io Q :=
  match float text with
  | Some x => ret x
  | None => raise ValueError
  end.

(** [MagnetObject.get_response] *)
Definition get_response : io (list string) :=
  let* raw := serial_read_until_newline in
  match decode raw with
  | Some text => ret (split comma text)
  | None => raise UnicodeDecodeError
  end.

(** while response[0] != tag: write(command); response = get_response() *)
Fixpoint await_tag (fuel : nat) (tag command : string) (response : list string)
  : io (list string) :=
  let* r0 := item response 0 in
  if negb (String.eqb r0 tag) then
    match fuel with
    | O => fun _ => OutOfFuel
    | S fuel' =>
      let* _ := serial_write (encode command) in
      let* response := get_response in
      await_tag fuel' tag command response
    end
  else ret response.

(** [MagnetObject.get_yaw]; the [except] branch only logs, so the call
    returns [None]. *)
Definition get_yaw (fuel : nat) : io (option Q) :=
  let command := str_of_int (value GET_YAW) ++ "," in
  try_except
    (let* _ := serial_write (encode command) in
     let* response := get_response in
     let* response := await_tag fuel "YAW" command response in
     let* r1 := item response 1 in
     let* yaw := to_float r1 in
     ret (Some yaw))
    (ret None).

(** [MagnetObject.offset]; [bool(text)] is true for a non-empty text. *)
Definition offset (fuel : nat) (aruco_yaw : Q) : io (option bool) :=
  let command :=
    str_of_int (value OFFSET) ++ "," ++ str_of_float aruco_yaw
    ++ String newline EmptyString in
  try_except
    (let* _ := serial_write (encode command) in
     let* response := get_response in
     let* response := await_tag fuel "OFFSET" command response in
     let* r1 := item response 1 in
     let success := negb (String.eqb r1 "") in
     ret (Some success))
    (ret None).
End Sensor.

End Magnet.

(** ** scripts/environments/TranslationEnvironment.py and
       scripts/environments/two_finger/translation.py *)

Module Translation.
Local Open Scope R_scope.

(** Euclidean distance of two points of the plane: [np.linalg.norm(p - q)]
    on two-element arrays, [math.dist(p, q)] on two-element lists. *)
Definition dist2 (p q : R * R) : R :=
  sqrt ((fst p - fst q) * (fst p - fst q) + (snd p - snd q) * (snd p - snd q)).

(** An object state or goal: a list that starts with x and y, so that
    [v[0:2]] has two elements. *)
Record state : Type := State { sx : R; sy : R; srest : list R }.

(** [v[0:2]] *)
Definition xy (v : state) : R * R := (sx v, sy v).

(** [TranslationEnvironment.reward_function] *)
Definition reward_function (noise_tolerance : R) (target_goal : state)
    (goal_before goal_after : option state) : R * bool :=
  match goal_before with
  | None => (0, true)
  | Some _ =>
    match goal_after with
    | None => (0, true)
    | Some goal_after =>
      let goal_difference := dist2 (xy target_goal) (xy goal_after) in
      if Rle_dec goal_difference noise_tolerance
      then (500, true)
      else (- goal_difference, false)
    end
  end.

Module TwoFingerTranslation.

(** The part of [environment_info] that the two-finger reward reads:
    [info["goal"]] and [info["poses"]["object"]["position"]]. *)
Record environment_info : Type := EnvironmentInfo {
  goal : R * R;
  object_position : R * R * R
}.

(** [position[0:2]] *)
Definition position_xy (p : R * R * R) : R * R := fst p.

(** [TwoFingerTranslation._reward_function] *)
Definition _reward_function (noise_tolerance : R)
    (previous_environment_info current_environment_info : environment_info)
  : R * bool :=
  let reward := 0 in
  let target_goal := goal current_environment_info in
  let object_previous := position_xy (object_position previous_environment_info) in
  let object_current := position_xy (object_position current_environment_info) in
  let goal_distance_before := dist2 target_goal object_previous in
  let goal_distance_after := dist2 target_goal object_current in
  let goal_progress := goal_distance_before - goal_distance_after in
  if Rle_dec goal_distance_after noise_tolerance
  then (500, true)
  else (reward + goal_progress, false).

End TwoFingerTranslation.

End Translation.

(** ** scripts/gripper_trainer.py *)

Module Trainer.
Local Open Scope Q_scope.

(** The exception classes [environment_step] distinguishes; [OtherError]
    is any exception its [except] clause does not name. *)
Inductive error : Type := EnvironmentError | GripperError | OtherError.

(** Calls that leave the trainer, in the order they are made. *)
Inductive event (action : Type) : Type :=
| EnvironmentStep (a : action)
| LoggingError
| HandleGripperErrorHome
| GetObjectPose
| GripperClose
| SaveModels (tag : string)
| Exit (code : Z).
Arguments EnvironmentStep {action} a.
Arguments LoggingError {action}.
Arguments HandleGripperErrorHome {action}.
Arguments GetObjectPose {action}.
Arguments GripperClose {action}.
Arguments SaveModels {action} tag.
Arguments Exit {action} code.

Inductive outcome (A : Type) : Type :=
| Return (a : A)
| Raise (e : error)
| Terminated (code : Z).
Arguments Return {A} a.
Arguments Raise {A} e.
Arguments Terminated {A} code.

(** What the collaborators answer during one call of [environment_step]:
    [self.environment.step(action)] returns a tuple or raises,
    [erh.handle_gripper_error_home(...)] homes the gripper and tells
    whether that worked, [self.environment.get_object_pose()] reads the
    object. *)
Record collaborators (action obs : Type) : Type := Collaborators {
  environment_step_result : action -> obs * Q * bool * bool + error;
  handle_gripper_error_home : bool;
  get_object_pose : obs
}.
Arguments environment_step_result {action obs} c a.
Arguments handle_gripper_error_home {action obs} c.
Arguments get_object_pose {action obs} c.

(** [GripperTrainer.environment_step] *)
Definition environment_step {action obs : Type} (w : collaborators action obs)
    (action_env : action)
  : list (event action) * outcome (obs * Q * bool * bool) :=
  match environment_step_result w action_env with
  | inl r => ([EnvironmentStep action_env], Return r)
  | inr OtherError => ([EnvironmentStep action_env], Raise OtherError)
  | inr _ =>
    if handle_gripper_error_home w then
      let state := get_object_pose w in
      ([EnvironmentStep action_env; LoggingError; HandleGripperErrorHome;
        GetObjectPose],
       Return (state, 0, false, false))
    else
      ([EnvironmentStep action_env; LoggingError; HandleGripperErrorHome;
        GripperClose; SaveModels "error_models"; Exit 1],
       Terminated 1)
  end.

Definition is_recovery {action : Type} (e : event action) : bool :=
  match e with HandleGripperErrorHome => true | _ => false end.

(** Number of recovery attempts in a trace. *)
Definition recovery_attempts {action : Type} (tr : list (event action)) : nat :=
  length (List.filter is_recovery tr).

(** Calls made by [environment_reset]: the reset itself, and the calls it
    shares with [environment_step]. *)
Inductive reset_call : Type :=
| EnvironmentReset
| Then (e : event Empty_set).

(** What the collaborators answer to the [k]-th call of
    [self.environment.reset()] and to the recovery that follows it. *)
Record reset_collaborators (obs : Type) : Type := ResetCollaborators {
  environment_reset_result : nat -> obs + error;
  handle_gripper_error_home_result : nat -> bool
}.
Arguments environment_reset_result {obs} r k.
Arguments handle_gripper_error_home_result {obs} r k.

(** [GripperTrainer.environment_reset], entered for the [k]-th time; the
    outcome is [None] when [fuel] nested calls did not finish it. *)
Fixpoint environment_reset {obs : Type} (fuel : nat)
    (w : reset_collaborators obs) (k : nat)
  : list reset_call * option (outcome obs) :=
  match environment_reset_result w k with
  | inl state => ([EnvironmentReset], Some (Return state))
  | inr OtherError => ([EnvironmentReset], Some (Raise OtherError))
  | inr _ =>
    if handle_gripper_error_home_result w k then
      match fuel with
      | O =>
        ([EnvironmentReset; Then LoggingError; Then HandleGripperErrorHome],
         None)
      | S fuel' =>
        let '(calls, result) := environment_reset fuel' w (S k) in
        ([EnvironmentReset; Then LoggingError; Then HandleGripperErrorHome]
           ++ calls,
         result)
      end
    else
      ([EnvironmentReset; Then LoggingError; Then HandleGripperErrorHome;
        Then GripperClose; Then (SaveModels "error_models"); Then (Exit 1)],
       Some (Terminated 1))
  end.

(** [GripperTrainer.dynamic_sleep]: [now] is what [time.time()] reads on
    entry, [sleep delay] the time [time.sleep(delay)] takes; the result is
    the time at which the call returns. *)
Definition dynamic_sleep (sleep : Q -> Q) (step_time_period env_start now : Q)
  : Q :=
  let process_time := now - env_start in
  let delay := step_time_period - process_time in
  if negb (Qle_bool delay 0) then now + sleep delay else now.

End Trainer.

(** ** scripts/Servo.py *)

Module Servo.
Local Open Scope string_scope.
Local Open Scope Z_scope.

(** [Servo.addresses] *)
Definition addresses : gmap string Z :=
  list_to_map
    [("torque_enable", 24); ("torque_limit", 35); ("led", 25);
     ("goal_position", 30); ("present_position", 37);
     ("present_velocity", 38); ("moving_speed", 32); ("moving", 49)].

(** [Servo.addresses[name]], [None] for a [KeyError]. *)
Definition address (name : string) : option Z := addresses !! name.

(** The fields set by [Servo.__init__] that the methods below read. *)
Record servo : Type := MkServo {
  LED_colour : Z;
  motor_id : Z;
  torque_limit : Z;
  speed_limit : Z;
  max : Z;
  min : Z
}.

(** A call on the packet handler: [writeNByteTxRx(port, id, address,
    value)]. *)
Record bus_write : Type := BusWrite {
  width : Z;
  target : Z;
  start_address : Z;
  value : Z
}.

(** What [process_result] prints. *)
Inductive printed : Type :=
| TxRxResult (dxl_comm_result : Z)
| RxPacketError (dxl_error : Z)
| Dynamixel (id : Z) (message : string).

Section Bus.
(** [dxl.COMM_SUCCESS] *)
Variable COMM_SUCCESS : Z.
(** The pair [dxl_comm_result, dxl_error] the packet handler answers. *)
Variable answer : bus_write -> Z * Z.

(** [Servo.process_result] *)
Definition process_result (s : servo) (dxl_com_result dxl_error : Z)
    (message : string) : printed :=
  if negb (dxl_com_result =? COMM_SUCCESS) then TxRxResult dxl_com_result
  else if negb (dxl_error =? 0) then RxPacketError dxl_error
  else Dynamixel (motor_id s) message.

(** A write to the register called [name], followed by [process_result]. *)
Definition write_register (s : servo) (bytes : Z) (name : string) (v : Z)
    (message : string) : option (bus_write * printed) :=
  match address name with
  | None => None
  | Some a =>
    let call := BusWrite bytes (motor_id s) a v in
    let '(dxl_comm_result, dxl_error) := answer call in
    Some (call, process_result s dxl_comm_result dxl_error message)
  end.

(** [Servo.turn_on_LED] *)
Definition turn_on_LED (s : servo) : option (bus_write * printed) :=
  write_register s 1 "led" (LED_colour s) "successfully turned on LEDs".

(** [Servo.limit_torque] *)
Definition limit_torque (s : servo) : option (bus_write * printed) :=
  write_register s 2 "torque_limit" (torque_limit s)
                 "has been successfully torque limited".

(** [Servo.enable_torque] *)
Definition enable_torque (s : servo) : option (bus_write * printed) :=
  write_register s 2 "torque_enable" 1 "has been successfully torque enabled".

(** [Servo.disable_torque] *)
Definition disable_torque (s : servo) : option (bus_write * printed) :=
  write_register s 1 "torque_enable" 0 "has successfully disabled torque".

(** [Servo.limit_speed] *)
Definition limit_speed (s : servo) : option (bus_write * printed) :=
  write_register s 2 "moving_speed" (speed_limit s)
                 "has been successfully speed limited".
End Bus.

(** [Servo.verify_step] *)
Definition verify_step (s : servo) (step : Z) : bool :=
  (min s <=? step) && (step <=? max s).

End Servo.

(** ** scripts/Objects.py: the servo that carries the object *)

Module ServoObject.
Local Open Scope Q_scope.

(** [ServoObject.get_yaw]; [current_position] is what
    [self.object_servo.current_position()] reads and [step_to_angle] the
    conversion of the servo class. *)
Definition get_yaw (step_to_angle : Z -> Q) (current_position : Z) : Q :=
  let yaw := step_to_angle current_position in
  if negb (Qle_bool 0 yaw) then yaw + 360 else yaw.

End ServoObject.

(** ** scripts/environments/two_finger/translation.py: the observation *)

Module TwoFingerState.

Section State.
(** A pose as the environment reports it, and [self._pose_to_state] of
    the parent class, which flattens one. *)
Variable pose : Type.
Variable _pose_to_state : pose -> list R.

(** The part of [environment_info] that the observation is built from:
    [info["gripper"]["positions"]], [info["gripper"]["velocities"]],
    [info["poses"]["gripper"]] and [info["poses"]["object"]]. *)
Record environment_info : Type := EnvironmentInfo {
  positions : list R;
  velocities : list R;
  gripper_poses : gmap nat pose;
  object_pose : pose
}.

(** for i in ids: state += self._pose_to_state(poses[i]); [None] stands
    for the [KeyError] of a marker that is not there. *)
Fixpoint marker_states (poses : gmap nat pose) (ids : list nat)
    (state : list R) : option (list R) :=
  match ids with
  | [] => Some state
  | i :: rest =>
    match poses !! i with
    | None => None
    | Some servo_position =>
      marker_states poses rest (state ++ _pose_to_state servo_position)
    end
  end.

(** [TwoFingerTranslation._environment_info_to_state]; [action_type],
    [num_motors] and [goal] are [self.action_type],
    [self.gripper.num_motors] and [self.goal]. *)
Definition _environment_info_to_state (action_type : string)
    (num_motors : nat) (goal : list R) (info : environment_info)
  : option (list R) :=
  let state := [] in
  let state := state ++ positions info in
  let state :=
    if String.eqb action_type "velocity" then state ++ velocities info
    else state in
  match marker_states (gripper_poses info) (seq 1 (num_motors + 2)) state with
  | None => None
  | Some state =>
    let state := state ++ _pose_to_state (object_pose info) in
    Some (state ++ goal)
  end.
End State.

End TwoFingerState.

(** ** Vocabulary of the statements about the serial line *)

Module MagnetSpec.
Import Magnet.
Local Open Scope string_scope.

(** A line as [read_until] delivers it: bytes without a newline, then one
    newline. *)
Fixpoint is_line (l : string) : bool :=
  match l with
  | EmptyString => false
  | String a r =>
    if Ascii.eqb a newline
    then match r with EmptyString => true | _ => false end
    else is_line r
  end.

(** The first comma-separated field of a response line, when the line
    decodes. *)
Definition tag_of (l : string) : option string :=
  match decode l with
  | Some text => hd_error (split comma text)
  | None => None
  end.

(** A well-formed response line whose tag is not [tag]. *)
Definition other_response (tag l : string) : bool :=
  is_line l &&
  match tag_of l with
  | Some t => negb (String.eqb t tag)
  | None => false
  end.

(** The bytes of several lines in a row. *)
Definition join (ls : list string) : string := fold_right append "" ls.

(** One write of [command] before each line read. *)
Definition exchanges (command : string) (ls : list string) : list io_event :=
  flat_map (fun l => [Tx command; Rx l]) ls.

(** The data of the writes recorded on the wire. *)
Definition requests (w : list io_event) : list string :=
  flat_map (fun e => match e with Tx data => [data] | Rx _ => [] end) w.

(** The one-character text holding a newline. *)
Definition nl : string := String newline "".

(** [float] restricted to what the examples need. *)
Definition sample_float (text : string) : option Q :=
  if String.eqb text ("173.5" ++ nl) then Some (347 # 2) else None.

End MagnetSpec.

(** ** Sample inputs for the worked instances *)

Module Samples.
Import Vision.

(** A marker at the origin turned to [yaw]. *)
Definition pose_at (yaw : Q) : pose := Pose (0, 0, 0)%Q (0, 0, yaw)%Q.

(** Nothing in the first frame, marker 7 alone in the second, marker 0 at
    yaw 91 from the third frame on. *)
Definition sample_scene : scene := fun k =>
  match k with
  | O => ∅
  | S O => {[ 7%Z := pose_at 10 ]}
  | _ => {[ 0%Z := pose_at 91 ]}
  end.

(** Collaborators of the trainer whose step raises [GripperError] and
    whose recovery succeeds or not, as told. *)
Definition faulty_step (recovers : bool) : Trainer.collaborators unit (list Q) :=
  Trainer.Collaborators unit (list Q)
    (fun _ => inr Trainer.GripperError) recovers [12; 34]%Q.

End Samples.

(** ** Vocabulary of the further statements *)

Module MoreSpec.

(** The rewards of an episode of the two-finger task: each step is
    rewarded against the one before it. *)
Fixpoint episode_rewards (noise_tolerance : R)
    (previous : Translation.TwoFingerTranslation.environment_info)
    (steps : list Translation.TwoFingerTranslation.environment_info)
  : list (R * bool) :=
  match steps with
  | [] => []
  | current :: rest =>
    Translation.TwoFingerTranslation._reward_function noise_tolerance previous
                                                      current
    :: episode_rewards noise_tolerance current rest
  end.

(** The calls of one failed reset that was recovered from. *)
Definition recovered_round : list Trainer.reset_call :=
  [Trainer.EnvironmentReset; Trainer.Then Trainer.LoggingError;
   Trainer.Then Trainer.HandleGripperErrorHome].

(** The addresses a write reaches: [width] bytes from its start. *)
Definition covers (c : Servo.bus_write) (a : Z) : bool :=
  (Servo.start_address c <=? a)%Z
  && (a <? Servo.start_address c + Servo.width c)%Z.

(** Collaborators whose reset fails twice with a [GripperError] and then
    returns, every recovery succeeding. *)
Definition third_time_lucky : Trainer.reset_collaborators (list Q) :=
  Trainer.ResetCollaborators (list Q)
    (fun k => if (k <? 2)%nat then inr Trainer.GripperError
              else inl [1; 2]%Q)
    (fun _ => true).

End MoreSpec.

(** ** Rotation environment *)

Module RotationFacts.
Import Vision Rotation Samples.

Section Detection.
Variable sc : scene.

Lemma detect_loop_unfold (fuel : nat) (s : detect_state) :
  detect_loop sc fuel s =
  if (size (marker_poses s) =? 0)%nat && (detect_attempts s <? 4)%nat then
    match fuel with
    | O => None
    | S fuel' =>
      detect_loop sc fuel'
        (DetectState (sc (frames_captured (cam s))) (detect_attempts s + 1)
                     (Camera (S (frames_captured (cam s)))))
    end
  else Some s.
Proof. destruct fuel; reflexivity. Qed.

(** The loop, entered with nothing detected yet and attempts left, makes
    [k] captures: all but the last see nothing, and it only goes on to the
    fourth attempt when the ones before saw nothing. *)
Lemma detect_loop_from_empty (fuel : nat) :
  forall s : detect_state,
    size (marker_poses s) = 0%nat ->
    detect_attempts s < 4 ->
    4 <= detect_attempts s + fuel ->
    exists k : nat,
      1 <= k /\ detect_attempts s + k <= 4 /\
      detect_loop sc fuel s =
        Some (DetectState (sc (frames_captured (cam s) + k - 1))
                          (detect_attempts s + k)
                          (Camera (frames_captured (cam s) + k))) /\
      (forall j, j + 1 < k -> size (sc (frames_captured (cam s) + j)) = 0%nat) /\
      (detect_attempts s + k < 4 ->
       size (sc (frames_captured (cam s) + k - 1)) <> 0%nat).
Proof.
  induction fuel as [|fuel IH]; intros s Hempty Hlt Hfuel; [lia|].
  rewrite detect_loop_unfold.
  rewrite Hempty. simpl.
  destruct (Nat.ltb_spec (detect_attempts s) 4) as [_|]; [|lia].
  set (n := frames_captured (cam s)).
  set (s1 := DetectState (sc n) (detect_attempts s + 1) (Camera (S n))).
  destruct (Nat.eq_dec (size (sc n)) 0) as [Hz|Hnz].
  - destruct (Nat.lt_ge_cases (detect_attempts s + 1) 4) as [Hmore|Hlast].
    + destruct (IH s1) as (k & Hk1 & Hk4 & Hrun & Hbefore & Hstop);
        [exact Hz | exact Hmore | simpl; lia |].
      simpl in *. exists (S k). repeat split; try lia.
      * rewrite Hrun. f_equal. f_equal; [f_equal; lia | lia | f_equal; lia].
      * intros j Hj. destruct j as [|j].
        -- rewrite Nat.add_0_r. exact Hz.
        -- replace (n + S j) with (S n + j) by lia. apply Hbefore. lia.
      * intros Hk. replace (n + S k - 1) with (S n + k - 1) by lia.
        apply Hstop. lia.
    + exists 1. repeat split; try lia.
      rewrite detect_loop_unfold. simpl.
      destruct (Nat.ltb_spec (detect_attempts s + 1) 4) as [|_]; [lia|].
      rewrite andb_false_r. unfold s1. f_equal. f_equal; [f_equal; lia | f_equal; lia].
  - exists 1. repeat split; try lia.
    + rewrite detect_loop_unfold. simpl.
      destruct (Nat.eqb_spec (size (sc n)) 0) as [|_]; [contradiction|].
      simpl. unfold s1. f_equal. f_equal; [f_equal; lia | f_equal; lia].
    + intros _. replace (n + 1 - 1) with n by lia. exact Hnz.
Qed.


(** What [get_marker_pose] returns, in terms of the frames it captures. *)
Lemma get_marker_pose_run (marker_id : Z) (c : camera) (fuel : nat) :
  4 <= fuel ->
  exists k : nat,
    (1 <= k <= 4) /\
    (forall j, j + 1 < k -> size (sc (frames_captured c + j)) = 0%nat) /\
    (k < 4 -> size (sc (frames_captured c + k - 1)) <> 0%nat) /\
    get_marker_pose sc fuel marker_id c =
      Some (sc (frames_captured c + k - 1) !! marker_id,
            Camera (frames_captured c + k)).
Proof.
  intros Hfuel.
  destruct (detect_loop_from_empty fuel (DetectState ∅ 0 c))
    as (k & Hk1 & Hk4 & Hrun & Hbefore & Hstop); simpl in *;
    [apply map_size_empty | lia | lia |].
  exists k. split; [lia|]. split; [exact Hbefore|]. split; [exact Hstop|].
  unfold get_marker_pose. rewrite Hrun. reflexivity.
Qed.

(** C10. [get_marker_pose] ends: given room for its four iterations it
    returns after [k] frame captures with [1 <= k <= 4]; every capture
    before the last one detected nothing, and it stops short of four
    captures only on a non-empty detection result, whatever that result
    holds; the pose returned is the entry of [marker_id] in the last
    detection result, so it is [None] exactly when [marker_id] is not a
    key of that result. *)
Theorem get_marker_pose_bounded_retry (marker_id : Z) (c : camera) (fuel : nat)
    (Hfuel : 4 <= fuel) :
  exists k : nat,
    (1 <= k <= 4) /\
    (forall j, j + 1 < k -> size (sc (frames_captured c + j)) = 0%nat) /\
    (k < 4 -> size (sc (frames_captured c + k - 1)) <> 0%nat) /\
    exists marker_pose : option pose,
      get_marker_pose sc fuel marker_id c =
        Some (marker_pose, Camera (frames_captured c + k)) /\
      (marker_pose = None <-> marker_id ∉ dom (sc (frames_captured c + k - 1))) /\
      (forall p, marker_pose = Some p <->
                 sc (frames_captured c + k - 1) !! marker_id = Some p).
Proof.
  destruct (get_marker_pose_run marker_id c fuel Hfuel)
    as (k & Hk & Hbefore & Hstop & Hrun).
  exists k. split; [exact Hk|]. split; [exact Hbefore|]. split; [exact Hstop|].
  exists (sc (frames_captured c + k - 1) !! marker_id).
  split; [exact Hrun|]. split; [|reflexivity].
  symmetry. apply not_elem_of_dom.
Qed.

End Detection.

Lemma get_marker_pose_bounded_retry_witness :
  exists k : nat,
    (1 <= k <= 4) /\
    get_marker_pose sample_scene 4 0 (Camera 0) = Some (None, Camera k).
Proof.
  destruct (get_marker_pose_bounded_retry sample_scene 0 (Camera 0) 4 (le_n 4))
    as (k & Hk & _ & _ & mp & Hrun & _).
  exists k. split; [exact Hk|].
  rewrite Hrun. vm_compute in Hrun.
  injection Hrun as <- _. reflexivity.
Defined.

Section Episode.
Variable sc : scene.
Variable action : Type.
Variable gripper_home : list Q * bool.
Variable gripper_move : action -> list Q * bool.

Lemma get_marker_pose_returns (marker_id : Z) (c : camera) (fuel : nat) :
  4 <= fuel ->
  exists marker_pose c',
    get_marker_pose sc fuel marker_id c = Some (marker_pose, c').
Proof.
  intros Hfuel.
  destruct (get_marker_pose_run sc marker_id c fuel Hfuel) as (k & _ & _ & _ & H).
  eauto.
Qed.

Lemma rotation_reward_no_pose (target : Q) (start final : option pose)
    (gripper_error : bool) :
  start = None \/ final = None ->
  reward_function target start final gripper_error = (0%Q, true).
Proof.
  intros [-> | ->]; [destruct final|]; reflexivity.
Qed.

(** [step], once both pose reads are known. *)
Lemma step_unfold (fuel : nat) (a : action) (e : env)
    (start final : option pose) (c1 c2 : camera) :
  get_marker_pose sc fuel 0 (env_camera e) = Some (start, c1) ->
  get_marker_pose sc fuel 0 c1 = Some (final, c2) ->
  step sc action gripper_move fuel a e =
    Some ((fst (gripper_move a)
             ++ [match final with Some p => yaw_of p | None => no_yaw end],
           fst (reward_function (target_angle e) start final
                                (snd (gripper_move a))),
           snd (reward_function (target_angle e) start final
                                (snd (gripper_move a))),
           false),
          Env (target_angle e) c2).
Proof.
  intros Hstart Hfinal. unfold step. rewrite Hstart.
  destruct (gripper_move a) as [state gripper_error]. rewrite Hfinal.
  destruct (reward_function _ _ _ _). reflexivity.
Qed.

(** C9. [reset] and [step] return the gripper's readings followed by
    exactly one yaw element: the marker's yaw when its pose was read, and
    the sentinel -1 when it was not; a yaw that is not negative is never
    equal to the sentinel. *)
Theorem unavailable_pose_appends_sentinel (fuel : nat) (r : Z) (a : action)
    (e : env) (Hfuel : 4 <= fuel) :
  (exists marker_pose c1 observation,
     get_marker_pose sc fuel 0 (env_camera e) = Some (marker_pose, c1) /\
     reset sc gripper_home fuel r e =
       Some ((observation, snd gripper_home), Env (choose_target_angle r) c1) /\
     (marker_pose = None -> observation = fst gripper_home ++ [(-1)%Q]) /\
     (forall p, marker_pose = Some p ->
                observation = fst gripper_home ++ [yaw_of p])) /\
  (exists start c1 final c2 observation reward terminated,
     get_marker_pose sc fuel 0 (env_camera e) = Some (start, c1) /\
     get_marker_pose sc fuel 0 c1 = Some (final, c2) /\
     step sc action gripper_move fuel a e =
       Some ((observation, reward, terminated, false), Env (target_angle e) c2) /\
     (final = None -> observation = fst (gripper_move a) ++ [(-1)%Q]) /\
     (forall p, final = Some p ->
                observation = fst (gripper_move a) ++ [yaw_of p])) /\
  (forall yaw : Q, (0 <= yaw)%Q -> ~ (yaw == no_yaw)%Q).
Proof.
  destruct (get_marker_pose_returns 0 (env_camera e) fuel Hfuel)
    as (start & c1 & Hstart).
  destruct (get_marker_pose_returns 0 c1 fuel Hfuel) as (final & c2 & Hfinal).
  split; [|split].
  - exists start, c1.
    exists (fst gripper_home
              ++ [match start with None => no_yaw | Some p => yaw_of p end]).
    split; [exact Hstart|]. split.
    + unfold reset. destruct gripper_home as [state terminated].
      rewrite Hstart. reflexivity.
    + split; [intros ->; reflexivity | intros p ->; reflexivity].
  - exists start, c1, final, c2. eexists. eexists. eexists.
    split; [exact Hstart|]. split; [exact Hfinal|]. split.
    + rewrite (step_unfold fuel a e start final c1 c2 Hstart Hfinal).
      reflexivity.
    + split; [intros ->; reflexivity | intros p ->; reflexivity].
  - intros yaw Hyaw Heq. rewrite Heq in Hyaw. unfold no_yaw in Hyaw.
    apply Qle_bool_iff in Hyaw. discriminate Hyaw.
Qed.

End Episode.

Lemma unavailable_pose_appends_sentinel_witness :
  reset (fun _ => ∅) ([1; 2]%Q, false) 4 1 (Env 0 (Camera 0))
  = Some (([1; 2; -1]%Q, false), Env 90 (Camera 4)).
Proof.
  destruct (unavailable_pose_appends_sentinel (fun _ => ∅) unit ([1; 2]%Q, false)
              (fun _ => ([1; 2]%Q, false)) 4 1 tt (Env 0 (Camera 0)) (le_n 4))
    as [(mp & c1 & obs & Hread & Hreset & Hnone & _) _].
  vm_compute in Hread. injection Hread as <- <-.
  rewrite Hreset. rewrite (Hnone eq_refl). reflexivity.
Defined.

(** C4, as the claim has it, fails: with target 90 and the yaw at 91
    before and after the move the episode ends, but the reward is 100. *)
Lemma rotation_goal_reward_counterexample :
  snd (reward_function 90 (Some (pose_at 91)) (Some (pose_at 91)) false) = true /\
  (fst (reward_function 90 (Some (pose_at 91)) (Some (pose_at 91)) false) == 100)%Q /\
  ~ (fst (reward_function 90 (Some (pose_at 91)) (Some (pose_at 91)) false) == 500)%Q.
Proof.
  split; [reflexivity|]. split; [reflexivity|].
  intros H. vm_compute in H. discriminate H.
Qed.

(** C4, amended. With target angle 90 and a final yaw of 91 (both poses
    read) the episode ends, and the reward is 100 added to the progress
    term: that term is 0 when the change of the angular error,
    [|90 - yaw before| - 1], lies within the noise band [-3, 3], and is
    that change otherwise. *)
Theorem rotation_goal_reward (start final : pose) (gripper_error : bool)
    (Hyaw : (yaw_of final == 91)%Q) :
  let result := reward_function 90 (Some start) (Some final) gripper_error in
  let delta_changes := (Qabs (90 - yaw_of start) - 1)%Q in
  snd result = true /\
  ((-3 <= delta_changes)%Q /\ (delta_changes <= 3)%Q -> (fst result == 100)%Q) /\
  (~ ((-3 <= delta_changes)%Q /\ (delta_changes <= 3)%Q) ->
   (fst result == delta_changes + 100)%Q).
Proof.
  intros result delta_changes.
  assert (Hafter : (Qabs (90 - yaw_of final) == 1)%Q)
    by (rewrite Hyaw; reflexivity).
  assert (Hnear : Qle_bool (Qabs (90 - yaw_of final)) 3 = true)
    by (apply Qle_bool_iff; rewrite Hafter; discriminate).
  assert (Hdelta : (Qabs (90 - yaw_of start) - Qabs (90 - yaw_of final)
                    == delta_changes)%Q)
    by (unfold delta_changes; rewrite Hafter; reflexivity).
  set (d := (Qabs (90 - yaw_of start) - Qabs (90 - yaw_of final))%Q) in *.
  assert (Hresult : result =
            ((if Qle_bool (-3) d && Qle_bool d 3 then 0 else d) + 100, true)%Q).
  { unfold result, reward_function. cbv zeta. rewrite Hnear. reflexivity. }
  rewrite Hresult. cbn [fst snd].
  split; [reflexivity|].
  assert (Hband : Qle_bool (-3) d && Qle_bool d 3 = true <->
                  (-3 <= delta_changes)%Q /\ (delta_changes <= 3)%Q).
  { rewrite andb_true_iff, !Qle_bool_iff, Hdelta. reflexivity. }
  destruct (Qle_bool (-3) d && Qle_bool d 3) eqn:Hin.
  - split; [intros _; reflexivity|].
    intros Hout. exfalso. apply Hout, Hband. reflexivity.
  - split.
    + intros Hyes. apply Hband in Hyes. discriminate Hyes.
    + intros _. rewrite Hdelta. reflexivity.
Qed.

Lemma rotation_goal_reward_witness :
  snd (reward_function 90 (Some (pose_at 50)) (Some (pose_at 91)) true) = true.
Proof.
  exact (proj1 (rotation_goal_reward (pose_at 50) (pose_at 91) true
                  (Qeq_refl 91))).
Defined.

End RotationFacts.

(** ** Fiducial-marker pose source *)

Module ArucoFacts.
Import Vision Aruco Samples.

Section Lookup.
Variable sc : scene.
Variable object_marker_id : Z.

Lemma get_yaw_loop_unfold (fuel : nat) (blindable : bool)
    (detection_attempts attempt : Z) (c : camera) :
  get_yaw_loop sc object_marker_id fuel blindable detection_attempts attempt c =
  if negb blindable || (attempt <? detection_attempts)%Z then
    match fuel with
    | O => None
    | S fuel' =>
      match sc (frames_captured c) !! object_marker_id with
      | Some p => Some (Some (yaw_of p), Camera (S (frames_captured c)))
      | None =>
        get_yaw_loop sc object_marker_id fuel' blindable detection_attempts
                     (attempt + 1)%Z (Camera (S (frames_captured c)))
      end
    end
  else Some (None, c).
Proof. destruct fuel; reflexivity. Qed.

(** [m] attempts are left and the marker is in none of the next [m]
    frames: the loop gives up after capturing exactly those. *)
Lemma get_yaw_loop_absent (m : nat) :
  forall (fuel : nat) (attempt : Z) (n : nat),
    m <= fuel ->
    (forall j, j < m -> sc (n + j) !! object_marker_id = None) ->
    get_yaw_loop sc object_marker_id fuel true (attempt + Z.of_nat m) attempt
                 (Camera n)
    = Some (None, Camera (n + m)).
Proof.
  induction m as [|m IH]; intros fuel attempt n Hfuel Habsent;
    rewrite get_yaw_loop_unfold; simpl negb; rewrite orb_false_l.
  - destruct (Z.ltb_spec attempt (attempt + Z.of_nat 0)) as [|_]; [lia|].
    rewrite Nat.add_0_r. reflexivity.
  - destruct (Z.ltb_spec attempt (attempt + Z.of_nat (S m))) as [_|]; [|lia].
    destruct fuel as [|fuel]; [lia|]. simpl frames_captured.
    rewrite <- (Nat.add_0_r n) at 1. rewrite Habsent by lia.
    replace (attempt + Z.of_nat (S m))%Z with (attempt + 1 + Z.of_nat m)%Z by lia.
    rewrite IH; [f_equal; f_equal; f_equal; lia | lia |].
    intros j Hj. replace (S n + j) with (n + S j) by lia. apply Habsent. lia.
Qed.

(** The marker first shows in the frame of attempt [k + 1], with attempts
    to spare: the loop returns its yaw after [k + 1] captures. *)
Lemma get_yaw_loop_found (k : nat) :
  forall (fuel : nat) (detection_attempts attempt : Z) (n : nat) (p : pose),
    k < fuel ->
    (attempt + Z.of_nat k < detection_attempts)%Z ->
    (forall j, j < k -> sc (n + j) !! object_marker_id = None) ->
    sc (n + k) !! object_marker_id = Some p ->
    get_yaw_loop sc object_marker_id fuel true detection_attempts attempt
                 (Camera n)
    = Some (Some (yaw_of p), Camera (n + k + 1)).
Proof.
  induction k as [|k IH]; intros fuel attempts attempt n p Hfuel Hleft Habsent Hfound;
    rewrite get_yaw_loop_unfold; simpl negb; rewrite orb_false_l;
    (destruct (Z.ltb_spec attempt attempts) as [_|]; [|lia]);
    (destruct fuel as [|fuel]; [lia|]); simpl frames_captured.
  - rewrite Nat.add_0_r in Hfound. rewrite Hfound.
    f_equal. f_equal. f_equal. lia.
  - rewrite <- (Nat.add_0_r n) at 1. rewrite Habsent by lia.
    rewrite (IH fuel attempts (attempt + 1)%Z (S n) p); try lia.
    + f_equal. f_equal. f_equal. lia.
    + intros j Hj. replace (S n + j) with (n + S j) by lia. apply Habsent. lia.
    + replace (S n + k) with (n + S k) by lia. exact Hfound.
Qed.

(** C6. With [blindable = True] and [detection_attempts = 10]: when the
    tracked marker is in none of the ten frames captured from now on, the
    call returns [None] after exactly ten captures; when it first shows in
    the frame of attempt [k + 1 <= 10], the call returns that marker's yaw
    after [k + 1] captures. *)
Theorem get_yaw_blindable_ten_attempts (fuel : nat) (c : camera)
    (Hfuel : 10 <= fuel) :
  ((forall j, j < 10 -> sc (frames_captured c + j) !! object_marker_id = None) ->
   get_yaw sc object_marker_id fuel true 10 c
   = Some (None, Camera (frames_captured c + 10))) /\
  (forall (k : nat) (p : pose),
     k < 10 ->
     (forall j, j < k -> sc (frames_captured c + j) !! object_marker_id = None) ->
     sc (frames_captured c + k) !! object_marker_id = Some p ->
     get_yaw sc object_marker_id fuel true 10 c
     = Some (Some (yaw_of p), Camera (frames_captured c + k + 1))).
Proof.
  destruct c as [n]. simpl. unfold get_yaw. split.
  - intros Habsent.
    exact (get_yaw_loop_absent 10 fuel 0%Z n Hfuel Habsent).
  - intros k p Hk Habsent Hfound.
    apply get_yaw_loop_found; [lia | lia | exact Habsent | exact Hfound].
Qed.

End Lookup.
Lemma get_yaw_blindable_ten_attempts_witness :
  get_yaw (fun _ => ∅) 0 10 true 10 (Camera 0) = Some (None, Camera 10) /\
  get_yaw sample_scene 0 10 true 10 (Camera 0) = Some (Some 91%Q, Camera 3).
Proof.
  split.
  - apply (proj1 (get_yaw_blindable_ten_attempts (fun _ => ∅) 0 10 (Camera 0)
                    (le_n 10))).
    intros j _. reflexivity.
  - apply (proj2 (get_yaw_blindable_ten_attempts sample_scene 0 10 (Camera 0)
                    (le_n 10)) 2 (pose_at 91)).
    + lia.
    + intros [|[|j]] Hj; [reflexivity | reflexivity | lia].
    + reflexivity.
Defined.

End ArucoFacts.

(** ** Magnetic sensor *)

Module MagnetFacts.
Import Magnet MagnetSpec.
Local Open Scope string_scope.

Lemma take_line_app (l rest : string) :
  is_line l = true -> take_line (l ++ rest) = Some (l, rest).
Proof.
  induction l as [|a l IH]; simpl; [discriminate|].
  destruct (Ascii.eqb a newline).
  - destruct l; [reflexivity | discriminate].
  - intros Hl. rewrite (IH Hl). reflexivity.
Qed.

Lemma take_line_inv (s l rest : string) :
  take_line s = Some (l, rest) -> s = l ++ rest /\ is_line l = true.
Proof.
  revert l rest. induction s as [|a s IH]; simpl; intros l rest; [discriminate|].
  destruct (Ascii.eqb a newline) eqn:Ha.
  - intros [= <- <-]. simpl. rewrite Ha. split; reflexivity.
  - destruct (take_line s) as [[l' rest']|]; [|discriminate].
    intros [= <- <-]. destruct (IH l' rest' eq_refl) as [-> Hl].
    simpl. rewrite Ha. split; [reflexivity | exact Hl].
Qed.

Lemma split_nonempty (sep : ascii) (s : string) : split sep s <> [].
Proof.
  destruct s as [|a s]; simpl; [discriminate|].
  destruct (Ascii.eqb a sep); [discriminate|].
  destruct (split sep s); discriminate.
Qed.

(** Reading one line that is there. *)
Lemma get_response_line (l rest : string) (w : list io_event) :
  is_line l = true ->
  get_response (Port (l ++ rest) w) =
  match decode l with
  | Some text => Returned (split comma text) (Port rest (w ++ [Rx l])%list)
  | None => Raised UnicodeDecodeError (Port rest (w ++ [Rx l])%list)
  end.
Proof.
  intros Hl. unfold get_response, bind, serial_read_until_newline. simpl.
  rewrite (take_line_app l rest Hl).
  destruct (decode l); reflexivity.
Qed.

Lemma await_tag_unfold (fuel : nat) (tag command : string)
    (response : list string) (p : port) :
  await_tag fuel tag command response p =
  match response with
  | [] => Raised IndexError p
  | r0 :: _ =>
    if negb (String.eqb r0 tag) then
      match fuel with
      | O => OutOfFuel
      | S fuel' =>
        match get_response (Port (rx p) (wire p ++ [Tx command])%list) with
        | Returned response' p' => await_tag fuel' tag command response' p'
        | Raised e p' => Raised e p'
        | Blocked p' => Blocked p'
        | OutOfFuel => OutOfFuel
        end
      end
    else Returned response p
  end.
Proof.
  destruct fuel; destruct response as [|r0 t]; try reflexivity;
    simpl; unfold bind, item; simpl; unfold ret;
    destruct (String.eqb r0 tag); reflexivity.
Qed.


Lemma append_assoc (a b c : string) : (a ++ b) ++ c = a ++ (b ++ c).
Proof.
  induction a as [|x a IH]; [reflexivity|].
  change (String x ((a ++ b) ++ c) = String x (a ++ b ++ c)).
  f_equal. exact IH.
Qed.

Lemma join_nil_app (s : string) : join [] ++ s = s.
Proof. reflexivity. Qed.

Lemma join_cons_app (l : string) (ls : list string) (s : string) :
  join (l :: ls) ++ s = l ++ join ls ++ s.
Proof. apply append_assoc. Qed.

Lemma exchanges_app (command : string) (ls1 ls2 : list string) :
  exchanges command (ls1 ++ ls2)%list
  = (exchanges command ls1 ++ exchanges command ls2)%list.
Proof. unfold exchanges. apply flat_map_app. Qed.

Lemma other_response_inv (tag l : string) :
  other_response tag l = true ->
  is_line l = true /\
  exists text r0 more,
    decode l = Some text /\ split comma text = r0 :: more /\
    String.eqb r0 tag = false.
Proof.
  unfold other_response, tag_of. intros H.
  apply andb_true_iff in H. destruct H as [Hl H]. split; [exact Hl|].
  destruct (decode l) as [text|]; [|discriminate].
  destruct (split comma text) as [|r0 more] eqn:Hsplit; [discriminate|].
  simpl in H. exists text, r0, more.
  split; [reflexivity|]. split; [exact Hsplit|].
  apply negb_true_iff. exact H.
Qed.

Section Waiting.
Variables tag command : string.

(** The loop is not entered when the response already carries the tag. *)
Lemma await_tag_tagged (fuel : nat) (more : list string) (p : port) :
  await_tag fuel tag command (tag :: more) p = Returned (tag :: more) p.
Proof. rewrite await_tag_unfold, String.eqb_refl. reflexivity. Qed.

(** Every line in [others] costs one write and one read; the loop leaves
    on the first line that carries the tag. *)
Lemma await_tag_skips (last text rest : string) (more : list string) :
  is_line last = true ->
  decode last = Some text ->
  split comma text = tag :: more ->
  forall (others : list string) (fuel : nat) (r0 : string) (t : list string)
         (w : list io_event),
    Forall (fun l => other_response tag l = true) others ->
    String.eqb r0 tag = false ->
    length others < fuel ->
    await_tag fuel tag command (r0 :: t)
              (Port (join others ++ last ++ rest) w)
    = Returned (tag :: more)
               (Port rest (w ++ exchanges command (others ++ [last]))%list).
Proof.
  intros Hlast Hdecode Hsplit.
  induction others as [|o others IH]; intros fuel r0 t w Hothers Hr0 Hfuel;
    (destruct fuel as [|fuel]; [simpl in Hfuel; lia|]);
    rewrite await_tag_unfold, Hr0; cbn [negb rx wire].
  - rewrite join_nil_app.
    rewrite (get_response_line last rest _ Hlast), Hdecode, Hsplit.
    rewrite await_tag_tagged. simpl. rewrite <- !app_assoc. reflexivity.
  - inversion Hothers as [|? ? Ho Hrest]; subst.
    destruct (other_response_inv tag o Ho)
      as (Hline & text' & r1 & more' & Hdec' & Hsplit' & Hr1).
    rewrite join_cons_app.
    rewrite (get_response_line o _ _ Hline), Hdec', Hsplit'.
    rewrite (IH fuel r1 more' _ Hrest Hr1) by (simpl in Hfuel; lia).
    simpl. rewrite <- !app_assoc. reflexivity.
Qed.

End Waiting.

(** What a returning [get_response] has done. *)
Lemma get_response_inv (q q1 : port) (response : list string) :
  get_response q = Returned response q1 ->
  exists l text,
    is_line l = true /\ rx q = l ++ rx q1 /\
    wire q1 = (wire q ++ [Rx l])%list /\
    decode l = Some text /\ response = split comma text.
Proof.
  unfold get_response, bind, serial_read_until_newline.
  destruct (take_line (rx q)) as [[l rest]|] eqn:Htake; [|discriminate].
  destruct (take_line_inv _ _ _ Htake) as [Hrx Hline].
  destruct (decode l) as [text|] eqn:Hdecode; [|discriminate].
  unfold ret. intros [= <- <-]. exists l, text. simpl.
  repeat (split; [assumption || reflexivity|]). reflexivity.
Qed.

Section WaitingInv.
Variables tag command : string.

(** A returning loop either was not entered, or read lines none of which
    but the last carries the tag, each after one write of the command. *)
Lemma await_tag_inv (fuel : nat) :
  forall (response : list string) (p : port) (response' : list string)
         (p' : port),
    await_tag fuel tag command response p = Returned response' p' ->
    (response' = response /\ p' = p /\ exists more, response = tag :: more) \/
    (exists r0 t others last text more,
       response = r0 :: t /\ String.eqb r0 tag = false /\
       Forall (fun l => other_response tag l = true) others /\
       is_line last = true /\ decode last = Some text /\
       split comma text = tag :: more /\ response' = tag :: more /\
       rx p = join others ++ last ++ rx p' /\
       wire p' = (wire p ++ exchanges command (others ++ [last]))%list).
Proof.
  induction fuel as [|fuel IH]; intros response p response' p';
    rewrite await_tag_unfold; destruct response as [|r0 t]; try discriminate;
    destruct (String.eqb r0 tag) eqn:Hr0; cbn [negb]; try discriminate;
    try (intros [= <- <-]; left; apply String.eqb_eq in Hr0; subst r0;
         split; [reflexivity|]; split; [reflexivity|]; eexists; reflexivity).
  destruct (get_response _) as [response1 q1| | |] eqn:Hget; try discriminate.
  intros Hrun. right.
  destruct (get_response_inv _ _ _ Hget) as (l & text & Hline & Hrx & Hwire & Hdecode & ->).
  cbn [rx wire] in Hrx, Hwire.
  destruct (IH _ _ _ _ Hrun)
    as [(-> & -> & more & Hsplit)
       |(r1 & t1 & others & last & text' & more & Hsplit & Hr1 & Hothers & Hlast
         & Hdecode' & Hsplit' & -> & Hrx' & Hwire')].
  - exists r0, t, [], l, text, more.
    repeat (split; [first [assumption | reflexivity | constructor]|]).
    rewrite Hwire. rewrite <- !app_assoc. reflexivity.
  - exists r0, t, (l :: others), last, text', more.
    split; [reflexivity|]. split; [exact Hr0|]. split.
    { constructor; [|exact Hothers].
      unfold other_response, tag_of. rewrite Hline, Hdecode, Hsplit. simpl.
      rewrite Hr1. reflexivity. }
    repeat (split; [first [assumption | reflexivity]|]). split.
    + rewrite join_cons_app, Hrx, Hrx'. reflexivity.
    + rewrite Hwire', Hwire. simpl. rewrite <- !app_assoc. reflexivity.
Qed.

End WaitingInv.

Lemma split_single (sep : ascii) (s x : string) :
  split sep s = [x] -> x = s.
Proof.
  revert x. induction s as [|a s IH]; simpl; intros x.
  - intros [= <-]. reflexivity.
  - destruct (Ascii.eqb a sep).
    + intros [= _ H]. destruct (split_nonempty sep s H).
    + destruct (split sep s) as [|h t] eqn:Hs.
      * destruct (split_nonempty sep s Hs).
      * intros [= <- ->]. rewrite (IH h eq_refl). reflexivity.
Qed.

Lemma decode_some (b text : string) : decode b = Some text -> text = b.
Proof. unfold decode. destruct (utf8_valid b); [intros [= <-]; reflexivity | discriminate]. Qed.

(** A line that carries a tag without a newline in it has a second field. *)
Lemma tagged_line_has_payload (l text tag : string) (more : list string) :
  is_line l = true -> decode l = Some text ->
  split comma text = tag :: more -> is_line tag = false ->
  exists payload more', more = payload :: more'.
Proof.
  intros Hline Hdecode Hsplit Htag.
  destruct more as [|payload more']; [|eauto].
  apply split_single in Hsplit. apply decode_some in Hdecode. subst.
  congruence.
Qed.

Lemma get_response_raise (q q1 : port) (e : exn) :
  get_response q = Raised e q1 -> e = UnicodeDecodeError.
Proof.
  unfold get_response, bind, serial_read_until_newline.
  destruct (take_line (rx q)) as [[l rest]|]; [|discriminate].
  destruct (decode l); [discriminate|]. intros [= <- _]. reflexivity.
Qed.

Lemma await_tag_raise (tag command : string) (fuel : nat) :
  forall (response : list string) (p p' : port) (e : exn),
    response <> [] ->
    await_tag fuel tag command response p = Raised e p' ->
    e = UnicodeDecodeError.
Proof.
  induction fuel as [|fuel IH]; intros response p p' e Hne;
    rewrite await_tag_unfold; destruct response as [|r0 t]; try congruence;
    destruct (negb (String.eqb r0 tag)); try discriminate.
  destruct (get_response _) as [response1 q1|e1 q1| |] eqn:Hget; try discriminate.
  - apply IH.
    destruct (get_response_inv _ _ _ Hget) as (l & text & _ & _ & _ & _ & ->).
    apply split_nonempty.
  - intros [= <- _]. exact (get_response_raise _ _ _ Hget).
Qed.

Section Sensor.
Variable float : string -> option Q.

Lemma get_yaw_unfold (fuel : nat) (p : port) :
  get_yaw float fuel p =
  match get_response (Port (rx p) (wire p ++ [Tx "0,"])%list) with
  | Returned response p1 =>
    match await_tag fuel "YAW" "0," response p1 with
    | Returned response' p2 =>
      match response' with
      | _ :: r1 :: _ => Returned (float r1) p2
      | _ => Raised IndexError p2
      end
    | Raised UnicodeDecodeError p2 => Returned None p2
    | Raised ValueError p2 => Returned None p2
    | Raised IndexError p2 => Raised IndexError p2
    | Blocked p2 => Blocked p2
    | OutOfFuel => OutOfFuel
    end
  | Raised UnicodeDecodeError p1 => Returned None p1
  | Raised ValueError p1 => Returned None p1
  | Raised IndexError p1 => Raised IndexError p1
  | Blocked p1 => Blocked p1
  | OutOfFuel => OutOfFuel
  end.
Proof.
  unfold get_yaw. cbv zeta.
  change (str_of_int (value GET_YAW) ++ ",") with "0,".
  unfold try_except, bind at 1 2, serial_write, encode. cbn [rx wire].
  destruct (get_response _) as [response p1|[]| |]; try reflexivity.
  unfold bind at 1.
  destruct (await_tag fuel "YAW" "0," response p1) as [response' p2|[]| |];
    try reflexivity.
  destruct response' as [|r0 [|r1 more]]; try reflexivity.
  unfold bind, item, to_float, ret, raise. simpl.
  destruct (float r1); reflexivity.
Qed.

(** Forward reading of [get_yaw]: [others] are answered by one re-send
    each, the first line tagged YAW ends the call, and what comes back is
    [float] of its second field ([None] when that is not a number). *)
Lemma get_yaw_run (others : list string) (last text payload rest : string)
    (more : list string) (fuel : nat) (w : list io_event) :
  Forall (fun l => other_response "YAW" l = true) others ->
  is_line last = true ->
  decode last = Some text ->
  split comma text = "YAW" :: payload :: more ->
  length others <= fuel ->
  get_yaw float fuel (Port (join others ++ last ++ rest) w)
  = Returned (float payload)
             (Port rest (w ++ exchanges "0," (others ++ [last]))%list).
Proof.
  intros Hothers Hlast Hdecode Hsplit Hfuel.
  rewrite get_yaw_unfold. cbn [rx wire].
  destruct others as [|o others].
  - rewrite join_nil_app.
    rewrite (get_response_line last rest _ Hlast), Hdecode, Hsplit.
    rewrite await_tag_tagged. simpl. rewrite <- !app_assoc. reflexivity.
  - inversion Hothers as [|? ? Ho Hrest]; subst.
    destruct (other_response_inv "YAW" o Ho)
      as (Hline & text' & r1 & more' & Hdec' & Hsplit' & Hr1).
    rewrite join_cons_app.
    rewrite (get_response_line o _ _ Hline), Hdec', Hsplit'.
    rewrite (await_tag_skips "YAW" "0," last text rest (payload :: more)
               Hlast Hdecode Hsplit others fuel r1 more' _ Hrest Hr1)
      by (simpl in Hfuel; lia).
    simpl. rewrite <- !app_assoc. reflexivity.
Qed.


(** Converse reading: a call that returns a number got there along the
    path of [get_yaw_run]. *)
Lemma get_yaw_inv (fuel : nat) (p p' : port) (yaw : Q) :
  get_yaw float fuel p = Returned (Some yaw) p' ->
  exists others last text payload more,
    Forall (fun l => other_response "YAW" l = true) others /\
    is_line last = true /\ decode last = Some text /\
    split comma text = "YAW" :: payload :: more /\
    float payload = Some yaw /\
    rx p = join others ++ last ++ rx p' /\
    wire p' = (wire p ++ exchanges "0," (others ++ [last]))%list.
Proof.
  rewrite get_yaw_unfold.
  destruct (get_response _) as [response p1|[]| |] eqn:Hget; try discriminate.
  destruct (get_response_inv _ _ _ Hget)
    as (l & text & Hline & Hrx & Hwire & Hdecode & ->).
  cbn [rx wire] in Hrx, Hwire.
  destruct (await_tag fuel "YAW" "0," (split comma text) p1)
    as [response' p2|[]| |] eqn:Hwait; try discriminate.
  destruct response' as [|r0 [|r1 more]]; try discriminate.
  intros [= Hfloat <-].
  destruct (await_tag_inv "YAW" "0," fuel _ _ _ _ Hwait)
    as [(Hsame & -> & more0 & Hsplit)
       |(r0' & t & others & last & text' & more' & Hsplit & Hr0 & Hothers
         & Hlast & Hdecode' & Hsplit' & Hresp & Hrx' & Hwire')].
  - rewrite <- Hsame in Hsplit. injection Hsplit as -> _.
    exists [], l, text, r1, more.
    split; [constructor|]. split; [exact Hline|]. split; [exact Hdecode|].
    split; [symmetry; exact Hsame|]. split; [exact Hfloat|].
    split; [exact Hrx|].
    rewrite Hwire. simpl. rewrite <- !app_assoc. reflexivity.
  - injection Hresp as -> <-.
    exists (l :: others), last, text', r1, more.
    split.
    { constructor; [|exact Hothers].
      unfold other_response, tag_of. rewrite Hline, Hdecode, Hsplit. simpl.
      rewrite Hr0. reflexivity. }
    split; [exact Hlast|]. split; [exact Hdecode'|]. split; [exact Hsplit'|].
    split; [exact Hfloat|]. split.
    + rewrite join_cons_app, Hrx, Hrx'. reflexivity.
    + rewrite Hwire', Hwire. simpl. rewrite <- !app_assoc. reflexivity.
Qed.


(** What can be checked of the spec's "never raises": whatever bytes
    arrive, [get_yaw] lets no exception through. *)
Lemma get_yaw_never_raises (fuel : nat) (p p' : port) (e : exn) :
  get_yaw float fuel p <> Raised e p'.
Proof.
  rewrite get_yaw_unfold.
  destruct (get_response _) as [response p1|e1 p1| |] eqn:Hget;
    try discriminate.
  2: { rewrite (get_response_raise _ _ _ Hget). discriminate. }
  destruct (get_response_inv _ _ _ Hget)
    as (l & text & Hline & _ & _ & Hdecode & ->).
  destruct (await_tag fuel "YAW" "0," (split comma text) p1)
    as [response' p2|e2 p2| |] eqn:Hwait; try discriminate.
  2: { rewrite (await_tag_raise _ _ _ _ _ _ _ (split_nonempty _ _) Hwait).
       discriminate. }
  destruct (await_tag_inv "YAW" "0," fuel _ _ _ _ Hwait)
    as [(-> & _ & more0 & Hsplit)
       |(_ & _ & _ & last & text' & more' & _ & _ & _
         & Hlast & Hdecode' & Hsplit' & -> & _)].
  - destruct (tagged_line_has_payload l text "YAW" more0 Hline Hdecode Hsplit
                eq_refl) as (payload & more' & ->).
    rewrite Hsplit. discriminate.
  - destruct (tagged_line_has_payload last text' "YAW" more' Hlast Hdecode'
                Hsplit' eq_refl) as (payload & more'' & ->).
    discriminate.
Qed.

(** Undecodable bytes end the call with [None] after one write and one
    read. *)
Lemma get_yaw_undecodable (l rest : string) (fuel : nat) (w : list io_event) :
  is_line l = true -> decode l = None ->
  get_yaw float fuel (Port (l ++ rest) w)
  = Returned None (Port rest (w ++ [Tx "0,"; Rx l])%list).
Proof.
  intros Hline Hdecode. rewrite get_yaw_unfold. cbn [rx wire].
  rewrite (get_response_line l rest _ Hline), Hdecode.
  rewrite <- !app_assoc. reflexivity.
Qed.

Variable str_of_float : Q -> string.

Lemma offset_unfold (fuel : nat) (aruco_yaw : Q) (p : port) :
  let command := "1," ++ str_of_float aruco_yaw ++ nl in
  offset str_of_float fuel aruco_yaw p =
  match get_response (Port (rx p) (wire p ++ [Tx command])%list) with
  | Returned response p1 =>
    match await_tag fuel "OFFSET" command response p1 with
    | Returned response' p2 =>
      match response' with
      | _ :: r1 :: _ => Returned (Some (negb (String.eqb r1 ""))) p2
      | _ => Raised IndexError p2
      end
    | Raised UnicodeDecodeError p2 => Returned None p2
    | Raised ValueError p2 => Returned None p2
    | Raised IndexError p2 => Raised IndexError p2
    | Blocked p2 => Blocked p2
    | OutOfFuel => OutOfFuel
    end
  | Raised UnicodeDecodeError p1 => Returned None p1
  | Raised ValueError p1 => Returned None p1
  | Raised IndexError p1 => Raised IndexError p1
  | Blocked p1 => Blocked p1
  | OutOfFuel => OutOfFuel
  end.
Proof.
  intros command. unfold offset. cbv zeta.
  change (str_of_int (value OFFSET) ++ "," ++ str_of_float aruco_yaw
          ++ String newline "") with command.
  unfold try_except, bind at 1 2, serial_write, encode. cbn [rx wire].
  destruct (get_response _) as [response p1|[]| |]; try reflexivity.
  unfold bind at 1.
  destruct (await_tag fuel "OFFSET" command response p1)
    as [response' p2|[]| |]; try reflexivity.
  destruct response' as [|r0 [|r1 more]]; reflexivity.
Qed.

(** Forward reading of [offset], the sibling of [get_yaw_run]. *)
Lemma offset_run (aruco_yaw : Q) (others : list string)
    (last text payload rest : string) (more : list string) (fuel : nat)
    (w : list io_event) :
  Forall (fun l => other_response "OFFSET" l = true) others ->
  is_line last = true ->
  decode last = Some text ->
  split comma text = "OFFSET" :: payload :: more ->
  length others <= fuel ->
  offset str_of_float fuel aruco_yaw (Port (join others ++ last ++ rest) w)
  = Returned (Some (negb (String.eqb payload "")))
      (Port rest
         (w ++ exchanges ("1," ++ str_of_float aruco_yaw ++ nl)
                         (others ++ [last]))%list).
Proof.
  intros Hothers Hlast Hdecode Hsplit Hfuel.
  rewrite offset_unfold. cbv zeta. cbn [rx wire].
  destruct others as [|o others].
  - rewrite join_nil_app.
    rewrite (get_response_line last rest _ Hlast), Hdecode, Hsplit.
    rewrite await_tag_tagged. simpl. rewrite <- !app_assoc. reflexivity.
  - inversion Hothers as [|? ? Ho Hrest]; subst.
    destruct (other_response_inv "OFFSET" o Ho)
      as (Hline & text' & r1 & more' & Hdec' & Hsplit' & Hr1).
    rewrite join_cons_app.
    rewrite (get_response_line o _ _ Hline), Hdec', Hsplit'.
    rewrite (await_tag_skips "OFFSET" _ last text rest (payload :: more)
               Hlast Hdecode Hsplit others fuel r1 more' _ Hrest Hr1)
      by (simpl in Hfuel; lia).
    simpl. rewrite <- !app_assoc. reflexivity.
Qed.

Lemma requests_app (w1 w2 : list io_event) :
  requests (w1 ++ w2)%list = (requests w1 ++ requests w2)%list.
Proof. unfold requests. apply flat_map_app. Qed.

Lemma requests_exchanges (command : string) (ls : list string) :
  requests (exchanges command ls) = repeat command (length ls).
Proof.
  induction ls as [|l ls IH]; [reflexivity|].
  simpl. rewrite <- IH. reflexivity.
Qed.

(** C5. [get_yaw] on the wire: each response line whose first field is
    not YAW is followed by exactly one more write of the command before
    the next line is read, and the first line tagged YAW ends the call
    with [float] of its second field; conversely a call that returns a
    number has read only such lines and a final line tagged YAW; and the
    line "YAW,173.5\n" makes it return 173.5. *)
Theorem get_yaw_resends_until_yaw (fuel : nat)
    (Hfloat : float ("173.5" ++ nl) = Some (347 # 2)) :
  (forall (others : list string) (last text payload rest : string)
          (more : list string) (w : list io_event),
     Forall (fun l => other_response "YAW" l = true) others ->
     is_line last = true ->
     decode last = Some text ->
     split comma text = "YAW" :: payload :: more ->
     length others <= fuel ->
     get_yaw float fuel (Port (join others ++ last ++ rest) w)
     = Returned (float payload)
         (Port rest (w ++ exchanges "0," (others ++ [last]))%list)) /\
  (forall (p p' : port) (yaw : Q),
     get_yaw float fuel p = Returned (Some yaw) p' ->
     exists others last text payload more,
       Forall (fun l => other_response "YAW" l = true) others /\
       is_line last = true /\ decode last = Some text /\
       split comma text = "YAW" :: payload :: more /\
       float payload = Some yaw /\
       rx p = join others ++ last ++ rx p' /\
       wire p' = (wire p ++ exchanges "0," (others ++ [last]))%list) /\
  (forall (rest : string) (w : list io_event),
     get_yaw float fuel (Port (("YAW,173.5" ++ nl) ++ rest) w)
     = Returned (Some (347 # 2))
         (Port rest (w ++ [Tx "0,"; Rx ("YAW,173.5" ++ nl)])%list)).
Proof.
  split; [|split].
  - intros others last text payload rest more w.
    apply get_yaw_run.
  - intros p p' yaw. apply get_yaw_inv.
  - intros rest w. rewrite <- Hfloat.
    apply (get_yaw_run [] ("YAW,173.5" ++ nl) ("YAW,173.5" ++ nl)
             ("173.5" ++ nl) rest [] fuel w);
      [constructor | reflexivity | reflexivity | reflexivity | simpl; lia].
Qed.

(** C7, where the code departs from it: a line that does not decode, or
    a YAW line whose payload is not a number, ends [get_yaw] with [None]
    after the one write and the one read already made; nothing is re-sent
    and nothing more is read, whatever follows on the line. *)
Theorem get_yaw_decode_failure_not_retried (fuel : nat) (rest : string)
    (w : list io_event) (Hfloat : float ("abc" ++ nl) = None) :
  get_yaw float fuel (Port (String (ascii_of_N 255) nl ++ rest) w)
  = Returned None
      (Port rest (w ++ [Tx "0,"; Rx (String (ascii_of_N 255) nl)])%list) /\
  get_yaw float fuel (Port (("YAW,abc" ++ nl) ++ rest) w)
  = Returned None (Port rest (w ++ [Tx "0,"; Rx ("YAW,abc" ++ nl)])%list).
Proof.
  split.
  - apply get_yaw_undecodable; reflexivity.
  - rewrite <- Hfloat at 1.
    apply (get_yaw_run [] ("YAW,abc" ++ nl) ("YAW,abc" ++ nl)
             ("abc" ++ nl) rest [] fuel w);
      [constructor | reflexivity | reflexivity | reflexivity | simpl; lia].
Qed.

(** C8, where the code departs from it: every request of a [get_yaw]
    call that returns a number is the two bytes "0," with no newline,
    while [offset] does write "1,<v>\n". *)
Theorem get_yaw_request_lacks_newline (fuel : nat) :
  (forall (p p' : port) (yaw : Q),
     get_yaw float fuel p = Returned (Some yaw) p' ->
     exists n : nat,
       requests (wire p') = (requests (wire p) ++ repeat "0," (S n))%list) /\
  "0," <> "0," ++ nl /\
  (forall (aruco_yaw : Q) (rest : string) (w : list io_event),
     offset str_of_float fuel aruco_yaw (Port (("OFFSET,1" ++ nl) ++ rest) w)
     = Returned (Some true)
         (Port rest
            (w ++ [Tx ("1," ++ str_of_float aruco_yaw ++ nl);
                   Rx ("OFFSET,1" ++ nl)])%list)).
Proof.
  split; [|split].
  - intros p p' yaw Hrun.
    destruct (get_yaw_inv _ _ _ _ Hrun)
      as (others & last & _ & _ & _ & _ & _ & _ & _ & _ & _ & Hwire).
    exists (length others).
    rewrite Hwire, requests_app, requests_exchanges, length_app. simpl.
    rewrite Nat.add_1_r. reflexivity.
  - discriminate.
  - intros aruco_yaw rest w.
    apply (offset_run aruco_yaw [] ("OFFSET,1" ++ nl) ("OFFSET,1" ++ nl)
             ("1" ++ nl) rest [] fuel w);
      [constructor | reflexivity | reflexivity | reflexivity | simpl; lia].
Qed.

End Sensor.

Lemma get_yaw_resends_until_yaw_witness :
  get_yaw sample_float 1
    (Port (join ["OFFSET,1" ++ nl] ++ ("YAW,173.5" ++ nl) ++ "tail") [])
  = Returned (Some (347 # 2))
      (Port "tail" [Tx "0,"; Rx ("OFFSET,1" ++ nl);
                    Tx "0,"; Rx ("YAW,173.5" ++ nl)]).
Proof.
  apply (proj1 (get_yaw_resends_until_yaw sample_float 1 eq_refl)
           ["OFFSET,1" ++ nl] ("YAW,173.5" ++ nl) ("YAW,173.5" ++ nl)
           ("173.5" ++ nl) "tail" [] []);
    [repeat constructor | reflexivity | reflexivity | reflexivity
    | apply le_n].
Defined.

Lemma get_yaw_decode_failure_not_retried_witness :
  get_yaw sample_float 5 (Port (("YAW,abc" ++ nl) ++ "YAW,173.5" ++ nl) [])
  = Returned None (Port ("YAW,173.5" ++ nl) [Tx "0,"; Rx ("YAW,abc" ++ nl)]).
Proof.
  exact (proj2 (get_yaw_decode_failure_not_retried sample_float 5
                  ("YAW,173.5" ++ nl) [] eq_refl)).
Defined.

End MagnetFacts.

(** ** Translation rewards and the trainer's recovery *)

Module TranslationFacts.
Import Translation Translation.TwoFingerTranslation.
Local Open Scope R_scope.

Lemma dist2_on_vertical (gx gy y : R) :
  0 <= y - gy -> dist2 (gx, gy) (gx, y) = y - gy.
Proof.
  intros Hy. unfold dist2. cbn [fst snd].
  replace ((gx - gx) * (gx - gx) + (gy - y) * (gy - y))
    with ((y - gy) * (y - gy)) by ring.
  apply sqrt_square. exact Hy.
Qed.

Lemma translation_reward_no_pose (noise_tolerance : R) (target_goal : state)
    (goal_before goal_after : option state) :
  goal_before = None \/ goal_after = None ->
  reward_function noise_tolerance target_goal goal_before goal_after = (0, true).
Proof.
  intros [-> | ->]; [|destruct goal_before]; reflexivity.
Qed.

(** C3, as the claim has it, fails for the two-finger task: goal at the
    origin, object moved from (0, 50) to (0, 30), tolerance 15.  The
    distance after the move is 30, the reward is 20 and not -30. *)
Lemma translation_reward_counterexample :
  ~ (forall (noise_tolerance : R) (previous current : environment_info),
       let distance :=
         dist2 (goal current) (position_xy (object_position current)) in
       (distance <= noise_tolerance ->
        _reward_function noise_tolerance previous current
        = (500, true)) /\
       (~ distance <= noise_tolerance ->
        _reward_function noise_tolerance previous current
        = (- distance, false))).
Proof.
  intros Hclaim.
  destruct (Hclaim 15 (EnvironmentInfo (0, 0) (0, 50, 0))
                   (EnvironmentInfo (0, 0) (0, 30, 0))) as [_ Hfar].
  unfold _reward_function, position_xy in Hfar.
  cbn [goal object_position fst] in Hfar.
  rewrite !dist2_on_vertical in Hfar by lra.
  destruct (Rle_dec (30 - 0) 15) as [Hle|Hgt]; [lra|].
  specialize (Hfar Hgt). injection Hfar as Hreward. lra.
Qed.

(** C3, amended. [TranslationEnvironment.reward_function] with both poses
    read: within [noise_tolerance] of the goal the result is reward 500
    and done; otherwise not done and the reward is the negative of the
    distance, a continuous function of it.
    [TwoFingerTranslation._reward_function]: within [noise_tolerance] of
    the goal, reward 500 and done; otherwise not done and the reward is
    the progress made, distance before minus distance after. *)
Theorem translation_reward (noise_tolerance : R) :
  (forall (target_goal goal_before goal_after : state),
     let distance := dist2 (xy target_goal) (xy goal_after) in
     (distance <= noise_tolerance ->
      reward_function noise_tolerance target_goal (Some goal_before)
                      (Some goal_after) = (500, true)) /\
     (noise_tolerance < distance ->
      reward_function noise_tolerance target_goal (Some goal_before)
                      (Some goal_after) = (- distance, false))) /\
  (exists f : R -> R,
     continuity f /\
     forall (target_goal goal_before goal_after : state),
       noise_tolerance < dist2 (xy target_goal) (xy goal_after) ->
       fst (reward_function noise_tolerance target_goal (Some goal_before)
                            (Some goal_after))
       = f (dist2 (xy target_goal) (xy goal_after))) /\
  (forall (previous current : environment_info),
     let distance_before :=
       dist2 (goal current) (position_xy (object_position previous)) in
     let distance_after :=
       dist2 (goal current) (position_xy (object_position current)) in
     (distance_after <= noise_tolerance ->
      _reward_function noise_tolerance previous current
      = (500, true)) /\
     (noise_tolerance < distance_after ->
      _reward_function noise_tolerance previous current
      = (distance_before - distance_after, false))).
Proof.
  split; [|split].
  - intros target_goal goal_before goal_after distance.
    unfold reward_function. fold distance.
    destruct (Rle_dec distance noise_tolerance) as [Hle|Hgt];
      split; intros H; try reflexivity; lra.
  - exists Ropp. split; [apply continuity_opp; apply derivable_continuous, derivable_id|].
    intros target_goal goal_before goal_after Hfar.
    unfold reward_function.
    destruct (Rle_dec _ noise_tolerance) as [Hle|Hgt]; [lra | reflexivity].
  - intros previous current distance_before distance_after.
    unfold _reward_function.
    fold distance_before. fold distance_after.
    destruct (Rle_dec distance_after noise_tolerance) as [Hle|Hgt];
      split; intros H; try reflexivity; try lra.
    f_equal. ring.
Qed.

Lemma translation_reward_witness :
  reward_function 15 (State 0 0 []) (Some (State 0 50 [])) (Some (State 0 30 []))
  = (- 30, false) /\
  _reward_function 15 (EnvironmentInfo (0, 0) (0, 50, 0))
                   (EnvironmentInfo (0, 0) (0, 30, 0))
  = (50 - 30, false).
Proof.
  assert (H30 : dist2 (0, 0) (0, 30) = 30)
    by (rewrite dist2_on_vertical; lra).
  assert (H50 : dist2 (0, 0) (0, 50) = 50)
    by (rewrite dist2_on_vertical; lra).
  destruct (translation_reward 15) as (Henv & _ & Htwo). split.
  - rewrite (proj2 (Henv (State 0 0 []) (State 0 50 []) (State 0 30 [])));
      unfold xy; cbn [sx sy]; rewrite H30; [reflexivity | lra].
  - rewrite (proj2 (Htwo (EnvironmentInfo (0, 0) (0, 50, 0))
                         (EnvironmentInfo (0, 0) (0, 30, 0))));
      unfold position_xy; cbn [goal object_position fst];
      rewrite H30, ?H50; [reflexivity | lra].
Defined.

End TranslationFacts.

Module TrainerFacts.
Import Trainer.

(** C2. When [environment.step] raises an [EnvironmentError] or a
    [GripperError], [environment_step] makes exactly one recovery attempt.
    If it succeeds, the call returns the object pose read afterwards with
    reward 0, done false and truncated false.  If it fails, the gripper is
    closed, the models are saved and the process exits with status 1;
    no second recovery and no second step are made. *)
Theorem environment_step_recovers_once {action obs : Type}
    (w : collaborators action obs) (action_env : action) (e : error)
    (Hraised : environment_step_result w action_env = inr e)
    (Hkind : e = EnvironmentError \/ e = GripperError) :
  recovery_attempts (fst (environment_step w action_env)) = 1 /\
  (handle_gripper_error_home w = true ->
   environment_step w action_env =
   ([EnvironmentStep action_env; LoggingError; HandleGripperErrorHome;
     GetObjectPose],
    Return (get_object_pose w, 0%Q, false, false))) /\
  (handle_gripper_error_home w = false ->
   environment_step w action_env =
   ([EnvironmentStep action_env; LoggingError; HandleGripperErrorHome;
     GripperClose; SaveModels "error_models"; Exit 1],
    Terminated 1)).
Proof.
  unfold environment_step. rewrite Hraised.
  destruct Hkind as [-> | ->];
    destruct (handle_gripper_error_home w);
    (split; [reflexivity|]); split; intros H;
    first [reflexivity | discriminate H].
Qed.

Lemma environment_step_recovers_once_witness :
  environment_step (Samples.faulty_step true) tt =
  ([EnvironmentStep tt; LoggingError; HandleGripperErrorHome; GetObjectPose],
   Return ([12; 34]%Q, 0%Q, false, false)) /\
  environment_step (Samples.faulty_step false) tt =
  ([EnvironmentStep tt; LoggingError; HandleGripperErrorHome;
    GripperClose; SaveModels "error_models"; Exit 1],
   Terminated 1).
Proof.
  split.
  - apply (proj1 (proj2 (environment_step_recovers_once
                           (Samples.faulty_step true) tt GripperError eq_refl
                           (or_intror eq_refl)))).
    reflexivity.
  - apply (proj2 (proj2 (environment_step_recovers_once
                           (Samples.faulty_step false) tt GripperError eq_refl
                           (or_intror eq_refl)))).
    reflexivity.
Defined.

End TrainerFacts.

(** ** Pose read failures, across the two reward functions *)

Module PoseFailure.
Import Vision.

(** C1. A step of the rotation environment always returns; when its
    pre-move or its post-move pose read gave no pose, the reward is 0 and
    the episode is over, whatever the action, the target angle and the
    other pose.  The translation reward function gives reward 0 and done
    on a missing pose as well. *)
Theorem step_without_pose_ends_episode (sc : scene) (action : Type)
    (gripper_move : action -> list Q * bool) (fuel : nat) (a : action)
    (e : Rotation.env) (Hfuel : 4 <= fuel) :
  (exists start c1 final c2 observation reward terminated,
     Rotation.get_marker_pose sc fuel 0 (Rotation.env_camera e)
       = Some (start, c1) /\
     Rotation.get_marker_pose sc fuel 0 c1 = Some (final, c2) /\
     Rotation.step sc action gripper_move fuel a e
       = Some ((observation, reward, terminated, false),
               Rotation.Env (Rotation.target_angle e) c2) /\
     (start = None \/ final = None -> reward = 0%Q /\ terminated = true)) /\
  (forall (noise_tolerance : R) (target_goal : Translation.state)
          (goal_before goal_after : option Translation.state),
     goal_before = None \/ goal_after = None ->
     Translation.reward_function noise_tolerance target_goal goal_before
                                 goal_after = (0%R, true)).
Proof.
  split.
  - destruct (RotationFacts.get_marker_pose_returns sc 0
                (Rotation.env_camera e) fuel Hfuel) as (start & c1 & Hstart).
    destruct (RotationFacts.get_marker_pose_returns sc 0 c1 fuel Hfuel)
      as (final & c2 & Hfinal).
    exists start, c1, final, c2. eexists. eexists. eexists.
    split; [exact Hstart|]. split; [exact Hfinal|]. split.
    + rewrite (RotationFacts.step_unfold sc action gripper_move fuel a e
                 start final c1 c2 Hstart Hfinal).
      reflexivity.
    + intros Hnone.
      rewrite (RotationFacts.rotation_reward_no_pose _ _ _ _ Hnone).
      split; reflexivity.
  - intros noise_tolerance target_goal goal_before goal_after.
    apply TranslationFacts.translation_reward_no_pose.
Qed.

Lemma step_without_pose_ends_episode_witness :
  Rotation.step (fun _ => ∅) unit (fun _ => ([1; 2]%Q, false)) 4 tt
                (Rotation.Env 90 (Camera 0))
  = Some (([1; 2; -1]%Q, 0%Q, true, false), Rotation.Env 90 (Camera 8)).
Proof.
  destruct (step_without_pose_ends_episode (fun _ => ∅) unit
              (fun _ => ([1; 2]%Q, false)) 4 tt (Rotation.Env 90 (Camera 0))
              (le_n 4))
    as [(start & c1 & final & c2 & obs & reward & terminated
         & Hstart & Hfinal & Hstep & Hnone) _].
  vm_compute in Hstart. injection Hstart as <- <-.
  vm_compute in Hfinal. injection Hfinal as <- <-.
  destruct (Hnone (or_introl eq_refl)) as [-> ->].
  rewrite Hstep. vm_compute in Hstep. injection Hstep as <-. reflexivity.
Defined.

End PoseFailure.

(** ** Further properties of the rotation environment *)

Module RotationMore.
Import Vision Rotation Samples.
Local Open Scope Q_scope.

(** The four draws of [np.random.randint(1,5)] give the four quadrant
    angles, each a valid yaw and none the "should not return" value. *)
Theorem choose_target_angle_in_range (r : Z) (Hr : (1 <= r < 5)%Z) :
  In (choose_target_angle r) [90; 180; 270; 0] /\
  0 <= choose_target_angle r /\ choose_target_angle r < 360 /\
  ~ choose_target_angle r == -1.
Proof.
  assert (Hcases : r = 1%Z \/ r = 2%Z \/ r = 3%Z \/ r = 4%Z) by lia.
  destruct Hcases as [-> | [-> | [-> | ->]]]; cbn;
    repeat split; auto; try discriminate.
Qed.

Lemma choose_target_angle_in_range_witness :
  0 <= choose_target_angle 3 /\ choose_target_angle 3 < 360.
Proof.
  destruct (choose_target_angle_in_range 3 ltac:(lia)) as (_ & H0 & H360 & _).
  split; assumption.
Defined.

(** The reward of a step whose two poses were read, split into its
    parts. *)
Lemma reward_function_both (target : Q) (start final : pose)
    (gripper_error : bool) :
  let delta_changes :=
    Qabs (target - yaw_of start) - Qabs (target - yaw_of final) in
  let progress :=
    if Qle_bool (-3) delta_changes && Qle_bool delta_changes 3
    then 0 else delta_changes in
  reward_function target (Some start) (Some final) gripper_error =
  if Qle_bool (Qabs (target - yaw_of final)) 3
  then (progress + 100, true) else (progress, false).
Proof. reflexivity. Qed.

Lemma outside_band (d : Q) :
  Qle_bool (-3) d && Qle_bool d 3 = false -> 3 < Qabs d.
Proof.
  intros Hband. apply andb_false_iff in Hband.
  destruct (Qlt_le_dec 3 (Qabs d)) as [Hgt|Hle]; [exact Hgt|].
  apply Qabs_Qle_condition in Hle. destruct Hle as [Hlo Hhi].
  apply Qle_bool_iff in Hlo. apply Qle_bool_iff in Hhi.
  change (Qle_bool (-3) d = true) in Hlo.
  destruct Hband; congruence.
Qed.

(** With both poses read, the episode ends exactly when the final yaw is
    within 3 degrees of the target, and the progress part of the reward
    (the reward itself, or the reward less the bonus of 100 when the
    episode ends) is either 0 or larger than 3 in magnitude: a change of
    the angular error within the noise band is never rewarded. *)
Theorem rotation_reward_noise_band (target : Q) (start final : pose)
    (gripper_error : bool) :
  let result := reward_function target (Some start) (Some final) gripper_error in
  (snd result = true <-> Qabs (target - yaw_of final) <= 3) /\
  (snd result = false -> fst result == 0 \/ 3 < Qabs (fst result)) /\
  (snd result = true ->
   fst result == 100 \/ 3 < Qabs (fst result - 100)).
Proof.
  intros result. unfold result. rewrite reward_function_both. cbv zeta.
  set (d := Qabs (target - yaw_of start) - Qabs (target - yaw_of final)).
  destruct (Qle_bool (Qabs (target - yaw_of final)) 3) eqn:Hnear;
    cbn [fst snd].
  - split; [split; [intros _; apply Qle_bool_iff; exact Hnear | reflexivity]|].
    split; [discriminate|]. intros _.
    destruct (Qle_bool (-3) d && Qle_bool d 3) eqn:Hband.
    + left. apply Qplus_0_l.
    + right. assert (E : (d + 100 - 100) == d) by ring.
    rewrite E; clear E.
      apply outside_band. exact Hband.
  - split.
    + split; [discriminate|]. intros Hle. apply Qle_bool_iff in Hle. congruence.
    + split; [|discriminate]. intros _.
      destruct (Qle_bool (-3) d && Qle_bool d 3) eqn:Hband.
      * left. reflexivity.
      * right. apply outside_band. exact Hband.
Qed.

Lemma progress_bounded (target before after : Q) :
  Qabs (Qabs (target - before) - Qabs (target - after)) <= Qabs (before - after).
Proof.
  apply Qabs_Qle_condition. split.
  - assert (H := Qabs_triangle_reverse (target - after) (target - before)).
    assert (E : (target - after - (target - before)) == (before - after)) by ring.
    rewrite E in H; clear E.
    apply Qopp_le_compat in H.
    assert (E : (- (Qabs (target - after) - Qabs (target - before)))
                == (Qabs (target - before) - Qabs (target - after))) by ring.
    rewrite E in H; clear E.
    exact H.
  - assert (H := Qabs_triangle_reverse (target - before) (target - after)).
    assert (E : (target - before - (target - after)) == (- (before - after))) by ring.
    rewrite E in H; clear E.
    rewrite Qabs_opp in H. exact H.
Qed.


Section Episode.
Variable sc : scene.
Variable action : Type.
Variable gripper_home : list Q * bool.
Variable gripper_move : action -> list Q * bool.

(** Given room for the detection loops, [reset] and [step] return.
    [reset] captures between 1 and 4 frames and installs the target angle
    of its draw; [step] captures between 2 and 8 frames, keeps the target
    angle, never truncates, and reads nothing of what [gripper.move]
    returns but the list of readings: the error flag has no effect. *)
Theorem episode_frame_budget (fuel : nat) (r : Z) (a : action) (e : env)
    (Hfuel : (4 <= fuel)%nat) :
  (exists (k : nat) (observation : list Q),
     (1 <= k <= 4)%nat /\
     reset sc gripper_home fuel r e =
       Some ((observation, snd gripper_home),
             Env (choose_target_angle r)
                 (Camera (frames_captured (env_camera e) + k)))) /\
  (exists (k : nat) (observation : list Q) (reward : Q) (terminated : bool),
     (2 <= k <= 8)%nat /\
     step sc action gripper_move fuel a e =
       Some ((observation, reward, terminated, false),
             Env (target_angle e)
                 (Camera (frames_captured (env_camera e) + k)))) /\
  (forall gripper_move' : action -> list Q * bool,
     fst (gripper_move' a) = fst (gripper_move a) ->
     step sc action gripper_move' fuel a e
     = step sc action gripper_move fuel a e).
Proof.
  destruct (RotationFacts.get_marker_pose_run sc 0 (env_camera e) fuel Hfuel)
    as (k1 & Hk1 & _ & _ & Hstart).
  destruct (RotationFacts.get_marker_pose_run sc 0
              (Camera (frames_captured (env_camera e) + k1)) fuel Hfuel)
    as (k2 & Hk2 & _ & _ & Hfinal).
  cbn [frames_captured] in Hfinal.
  split; [|split].
  - exists k1. unfold reset. rewrite Hstart.
    destruct gripper_home as [state terminated]. eexists.
    split; [exact Hk1 | reflexivity].
  - exists (k1 + k2)%nat. eexists. eexists. eexists. split; [lia|].
    rewrite (RotationFacts.step_unfold sc action gripper_move fuel a e
               _ _ _ _ Hstart Hfinal).
    rewrite Nat.add_assoc. reflexivity.
  - intros gripper_move' Hsame.
    rewrite (RotationFacts.step_unfold sc action gripper_move fuel a e
               _ _ _ _ Hstart Hfinal).
    rewrite (RotationFacts.step_unfold sc action gripper_move' fuel a e
               _ _ _ _ Hstart Hfinal).
    rewrite Hsame. reflexivity.
Qed.

End Episode.

Lemma episode_frame_budget_witness :
  step sample_scene unit (fun _ => ([1; 2], true)) 4 tt (Env 90 (Camera 0))
  = step sample_scene unit (fun _ => ([1; 2], false)) 4 tt (Env 90 (Camera 0)).
Proof.
  apply (proj2 (proj2 (episode_frame_budget sample_scene unit ([], false)
                         (fun _ => ([1; 2], false)) 4 1 tt
                         (Env 90 (Camera 0)) (le_n 4)))).
  reflexivity.
Defined.

End RotationMore.

(** ** Further properties of the fiducial-marker pose source *)

Module ArucoMore.
Import Vision Aruco Samples.

Section Lookup.
Variable sc : scene.
Variable object_marker_id : Z.

Let absent (k : nat) : Prop := sc k !! object_marker_id = None.

Lemma get_yaw_loop_bounded (m : nat) :
  forall (fuel : nat) (attempt : Z) (n : nat),
    m <= fuel ->
    exists (r : option Q) (k : nat),
      get_yaw_loop sc object_marker_id fuel true (attempt + Z.of_nat m)
                   attempt (Camera n)
      = Some (r, Camera (n + k)) /\
      k <= m /\
      (r = None -> k = m /\ forall j, j < k -> absent (n + j)) /\
      (forall y, r = Some y ->
         exists p, 1 <= k /\ sc (n + k - 1) !! object_marker_id = Some p /\
                   y = yaw_of p /\ forall j, j + 1 < k -> absent (n + j)).
Proof.
  induction m as [|m IH]; intros fuel attempt n Hfuel;
    rewrite ArucoFacts.get_yaw_loop_unfold; simpl negb; rewrite orb_false_l.
  - destruct (Z.ltb_spec attempt (attempt + Z.of_nat 0)) as [|_]; [lia|].
    exists None, 0. rewrite Nat.add_0_r.
    split; [reflexivity|]. split; [lia|]. split.
    + intros _. split; [reflexivity | intros j Hj; lia].
    + intros y Hy. discriminate Hy.
  - destruct (Z.ltb_spec attempt (attempt + Z.of_nat (S m))) as [_|]; [|lia].
    destruct fuel as [|fuel]; [lia|]. cbn [frames_captured].
    destruct (sc n !! object_marker_id) as [p|] eqn:Hlook.
    + exists (Some (yaw_of p)), 1.
      split; [f_equal; f_equal; f_equal; lia|]. split; [lia|]. split.
      * intros Hnone. discriminate Hnone.
      * intros y [= <-]. exists p. split; [lia|].
        replace (n + 1 - 1) with n by lia.
        split; [exact Hlook|]. split; [reflexivity | intros j Hj; lia].
    + replace (attempt + Z.of_nat (S m))%Z with (attempt + 1 + Z.of_nat m)%Z
        by lia.
      destruct (IH fuel (attempt + 1)%Z (S n) ltac:(lia))
        as (r & k & Hrun & Hk & Hnone & Hsome).
      exists r, (S k). rewrite Hrun.
      split; [f_equal; f_equal; f_equal; lia|]. split; [lia|]. split.
      * intros Hr. destruct (Hnone Hr) as [-> Habsent].
        split; [reflexivity|]. intros [|j] Hj.
        -- unfold absent. rewrite Nat.add_0_r. exact Hlook.
        -- replace (n + S j) with (S n + j) by lia. apply Habsent. lia.
      * intros y Hy. destruct (Hsome y Hy) as (p & Hk1 & Hp & -> & Habsent).
        exists p. split; [lia|].
        replace (n + S k - 1) with (S n + k - 1) by lia.
        split; [exact Hp|]. split; [reflexivity|]. intros [|j] Hj.
        -- unfold absent. rewrite Nat.add_0_r. exact Hlook.
        -- replace (n + S j) with (S n + j) by lia. apply Habsent. lia.
Qed.

(** A blindable lookup always returns, after at most [detection_attempts]
    captures (none at all when that number is zero or negative).  It
    returns [None] only after exactly that many captures, none of which
    showed the marker, and a yaw only from the first frame that shows
    it. *)
Theorem get_yaw_blindable_budget (fuel : nat) (detection_attempts : Z)
    (c : camera) (Hfuel : Z.to_nat detection_attempts <= fuel) :
  exists (r : option Q) (k : nat),
    get_yaw sc object_marker_id fuel true detection_attempts c
    = Some (r, Camera (frames_captured c + k)) /\
    k <= Z.to_nat detection_attempts /\
    (r = None ->
     k = Z.to_nat detection_attempts /\
     forall j, j < k -> sc (frames_captured c + j) !! object_marker_id = None) /\
    (forall y, r = Some y ->
       exists p,
         1 <= k /\
         sc (frames_captured c + k - 1) !! object_marker_id = Some p /\
         y = yaw_of p /\
         forall j, j + 1 < k ->
                   sc (frames_captured c + j) !! object_marker_id = None).
Proof.
  destruct c as [n]. cbn [frames_captured]. unfold get_yaw.
  destruct (Z.le_gt_cases 0 detection_attempts) as [Hpos|Hneg].
  - destruct (get_yaw_loop_bounded (Z.to_nat detection_attempts) fuel 0%Z n
                Hfuel) as (r & k & Hrun & Hrest).
    rewrite Z2Nat.id, Z.add_0_l in Hrun by exact Hpos.
    exists r, k. split; [exact Hrun | exact Hrest].
  - exists None, 0. rewrite ArucoFacts.get_yaw_loop_unfold. simpl negb.
    rewrite orb_false_l.
    destruct (Z.ltb_spec 0 detection_attempts) as [|_]; [lia|].
    rewrite Nat.add_0_r. split; [reflexivity|].
    replace (Z.to_nat detection_attempts) with 0 by lia.
    split; [lia|]. split.
    + intros _. split; [reflexivity | intros j Hj; lia].
    + intros y Hy. discriminate Hy.
Qed.

Lemma get_yaw_loop_not_blindable_absent (fuel : nat) :
  forall (detection_attempts attempt : Z) (n : nat),
    (forall j, absent (n + j)) ->
    get_yaw_loop sc object_marker_id fuel false detection_attempts attempt
                 (Camera n) = None.
Proof.
  induction fuel as [|fuel IH]; intros attempts attempt n Habsent;
    rewrite ArucoFacts.get_yaw_loop_unfold; simpl negb; rewrite orb_true_l;
    [reflexivity|].
  cbn [frames_captured].
  assert (H0 := Habsent 0). unfold absent in H0. rewrite Nat.add_0_r in H0.
  rewrite H0. apply IH.
  intros j. replace (S n + j) with (n + S j) by lia. apply Habsent.
Qed.

Lemma get_yaw_loop_not_blindable_result (fuel : nat) :
  forall (detection_attempts attempt : Z) (n : nat) (r : option Q)
         (c' : camera),
    get_yaw_loop sc object_marker_id fuel false detection_attempts attempt
                 (Camera n) = Some (r, c') ->
    exists (k : nat) (p : pose),
      sc (n + k) !! object_marker_id = Some p /\
      (forall j, j < k -> absent (n + j)) /\
      r = Some (yaw_of p) /\ c' = Camera (n + k + 1).
Proof.
  induction fuel as [|fuel IH]; intros attempts attempt n r c';
    rewrite ArucoFacts.get_yaw_loop_unfold; simpl negb; rewrite orb_true_l;
    [discriminate|].
  cbn [frames_captured].
  destruct (sc n !! object_marker_id) as [p|] eqn:Hlook.
  - intros [= <- <-]. exists 0, p. rewrite Nat.add_0_r.
    split; [exact Hlook|]. split; [intros j Hj; lia|].
    split; [reflexivity | f_equal; lia].
  - intros Hrun. destruct (IH _ _ _ _ _ Hrun) as (k & p & Hp & Hbefore & -> & ->).
    exists (S k), p. replace (n + S k) with (S n + k) by lia.
    split; [exact Hp|]. split.
    + intros [|j] Hj.
      * unfold absent. rewrite Nat.add_0_r. exact Hlook.
      * replace (n + S j) with (S n + j) by lia. apply Hbefore. lia.
    + split; [reflexivity | f_equal; lia].
Qed.

(** A lookup that is not blindable never gives up: while the marker stays
    out of view it does not return, however many iterations it is given,
    and [detection_attempts] plays no part; when it returns, it returns
    the yaw of the marker from the first frame that shows it, never
    [None]. *)
Theorem get_yaw_not_blindable_never_gives_up (detection_attempts : Z)
    (c : camera) :
  ((forall j, sc (frames_captured c + j) !! object_marker_id = None) ->
   forall fuel,
     get_yaw sc object_marker_id fuel false detection_attempts c = None) /\
  (forall (fuel : nat) (r : option Q) (c' : camera),
     get_yaw sc object_marker_id fuel false detection_attempts c
     = Some (r, c') ->
     exists (k : nat) (p : pose),
       sc (frames_captured c + k) !! object_marker_id = Some p /\
       (forall j, j < k ->
                  sc (frames_captured c + j) !! object_marker_id = None) /\
       r = Some (yaw_of p) /\
       c' = Camera (frames_captured c + k + 1)).
Proof.
  destruct c as [n]. cbn [frames_captured]. unfold get_yaw. split.
  - intros Habsent fuel.
    apply get_yaw_loop_not_blindable_absent. exact Habsent.
  - intros fuel r c'. apply get_yaw_loop_not_blindable_result.
Qed.

End Lookup.

Lemma get_yaw_blindable_budget_witness :
  exists k : nat,
    k <= 2 /\
    get_yaw sample_scene 0 5 true 2 (Camera 0) = Some (None, Camera k).
Proof.
  destruct (get_yaw_blindable_budget sample_scene 0 5 2 (Camera 0)
              ltac:(simpl; lia)) as (r & k & Hrun & Hk & _).
  exists k. split; [exact Hk|]. rewrite Hrun.
  vm_compute in Hrun. injection Hrun as <- _. reflexivity.
Defined.

Lemma get_yaw_not_blindable_never_gives_up_witness :
  get_yaw (fun _ => ∅) 0 50 false 10 (Camera 0) = None.
Proof.
  apply (proj1 (get_yaw_not_blindable_never_gives_up (fun _ => ∅) 0 10
                  (Camera 0))).
  intros j. reflexivity.
Defined.

End ArucoMore.

(** ** Further properties of the magnetic sensor *)

Module MagnetMore.
Import Magnet MagnetSpec MagnetFacts.
Local Open Scope string_scope.

Lemma concat_cons2 (sep x y : string) (l : list string) :
  String.concat sep (x :: y :: l) = x ++ sep ++ String.concat sep (y :: l).
Proof. reflexivity. Qed.

(** Joining the fields of [split] with the separator gives the text
    back. *)
Lemma concat_split (sep : ascii) (s : string) :
  String.concat (String sep "") (split sep s) = s.
Proof.
  induction s as [|a s IH]; [reflexivity|].
  cbn [split]. destruct (Ascii.eqb_spec a sep) as [->|Hne].
  - destruct (split sep s) as [|h t] eqn:Hs;
      [destruct (split_nonempty sep s Hs)|].
    rewrite concat_cons2, IH. reflexivity.
  - destruct (split sep s) as [|h t] eqn:Hs;
      [destruct (split_nonempty sep s Hs)|].
    destruct t as [|h' t].
    + change (String a h = String a s). f_equal. exact IH.
    + rewrite concat_cons2. rewrite concat_cons2 in IH. rewrite <- IH.
      reflexivity.
Qed.

Lemma is_line_app_false (prefix : string) :
  is_line prefix = false -> is_line (prefix ++ ",") = false.
Proof.
  induction prefix as [|a p IH]; [reflexivity|].
  change (String a p ++ ",") with (String a (p ++ ",")). cbn [is_line].
  destruct (Ascii.eqb a newline).
  - destruct p; [|reflexivity]. reflexivity.
  - exact IH.
Qed.

(** The second of two fields of a line is not empty: it holds the
    newline. *)
Lemma second_field_nonempty (l text tag payload : string) :
  is_line l = true -> decode l = Some text ->
  split comma text = [tag; payload] -> is_line tag = false ->
  payload <> "".
Proof.
  intros Hline Hdecode Hsplit Htag ->.
  apply decode_some in Hdecode. subst text.
  assert (Hl := concat_split comma l). rewrite Hsplit in Hl.
  cbn [String.concat] in Hl.
  change (tag ++ String comma "" ++ "") with (tag ++ ",") in Hl.
  rewrite <- Hl, is_line_app_false in Hline by exact Htag.
  discriminate Hline.
Qed.

Lemma get_response_blocks (tail : string) (w : list io_event) :
  take_line tail = None -> get_response (Port tail w) = Blocked (Port tail w).
Proof.
  intros Htail. unfold get_response, bind, serial_read_until_newline.
  cbn [rx]. rewrite Htail. reflexivity.
Qed.

Lemma await_tag_blocks (tag command tail : string) :
  take_line tail = None ->
  forall (others : list string) (fuel : nat) (r0 : string) (t : list string)
         (w : list io_event),
    Forall (fun l => other_response tag l = true) others ->
    String.eqb r0 tag = false ->
    length others < fuel ->
    await_tag fuel tag command (r0 :: t) (Port (join others ++ tail) w)
    = Blocked
        (Port tail (w ++ exchanges command others ++ [Tx command])%list).
Proof.
  intros Htail.
  induction others as [|o others IH]; intros fuel r0 t w Hothers Hr0 Hfuel;
    (destruct fuel as [|fuel]; [simpl in Hfuel; lia|]);
    rewrite await_tag_unfold, Hr0; cbn [negb rx wire].
  - rewrite join_nil_app, (get_response_blocks _ _ Htail). reflexivity.
  - inversion Hothers as [|? ? Ho Hrest]; subst.
    destruct (other_response_inv tag o Ho)
      as (Hline & text & r1 & more & Hdecode & Hsplit & Hr1).
    rewrite join_cons_app.
    rewrite (get_response_line o _ _ Hline), Hdecode, Hsplit.
    rewrite (IH fuel r1 more _ Hrest Hr1) by (simpl in Hfuel; lia).
    simpl. rewrite <- !app_assoc. reflexivity.
Qed.

Section Sensor.
Variable float : string -> option Q.
Variable str_of_float : Q -> string.

(** When no line tagged YAW ever arrives, [get_yaw] does not return: after
    the lines it was sent, each answered by one re-send, it waits in
    [read_until] for a newline that does not come. *)
Theorem get_yaw_waits_for_yaw (others : list string) (tail : string)
    (fuel : nat) (w : list io_event)
    (Hothers : Forall (fun l => other_response "YAW" l = true) others)
    (Htail : take_line tail = None)
    (Hfuel : length others <= fuel) :
  get_yaw float fuel (Port (join others ++ tail) w)
  = Blocked (Port tail (w ++ exchanges "0," others ++ [Tx "0,"])%list).
Proof.
  rewrite get_yaw_unfold. cbn [rx wire].
  destruct others as [|o others].
  - rewrite join_nil_app, (get_response_blocks _ _ Htail). reflexivity.
  - inversion Hothers as [|? ? Ho Hrest]; subst.
    destruct (other_response_inv "YAW" o Ho)
      as (Hline & text & r1 & more & Hdecode & Hsplit & Hr1).
    rewrite join_cons_app.
    rewrite (get_response_line o _ _ Hline), Hdecode, Hsplit.
    rewrite (await_tag_blocks "YAW" "0," tail Htail others fuel r1 more _
               Hrest Hr1) by (simpl in Hfuel; lia).
    simpl. rewrite <- !app_assoc. reflexivity.
Qed.

(** [offset] lets no exception through either, and a reply that does not
    decode ends it with [None] after the one write and the one read
    made. *)
Theorem offset_never_raises (fuel : nat) (aruco_yaw : Q) :
  (forall (p p' : port) (e : exn),
     offset str_of_float fuel aruco_yaw p <> Raised e p') /\
  (forall (l rest : string) (w : list io_event),
     is_line l = true -> decode l = None ->
     offset str_of_float fuel aruco_yaw (Port (l ++ rest) w)
     = Returned None
         (Port rest
            (w ++ [Tx ("1," ++ str_of_float aruco_yaw ++ nl); Rx l])%list)).
Proof.
  split.
  - intros p p' e. rewrite (offset_unfold str_of_float). cbv zeta.
    set (command := "1," ++ str_of_float aruco_yaw ++ nl).
    destruct (get_response _) as [response p1|e1 p1| |] eqn:Hget;
      try discriminate.
    2: { rewrite (get_response_raise _ _ _ Hget). discriminate. }
    destruct (get_response_inv _ _ _ Hget)
      as (l & text & Hline & _ & _ & Hdecode & ->).
    destruct (await_tag fuel "OFFSET" command (split comma text) p1)
      as [response' p2|e2 p2| |] eqn:Hwait; try discriminate.
    2: { rewrite (await_tag_raise _ _ _ _ _ _ _ (split_nonempty _ _) Hwait).
         discriminate. }
    destruct (await_tag_inv "OFFSET" command fuel _ _ _ _ Hwait)
      as [(-> & _ & more0 & Hsplit)
         |(_ & _ & _ & last & text' & more' & _ & _ & _
           & Hlast & Hdecode' & Hsplit' & -> & _)].
    + destruct (tagged_line_has_payload l text "OFFSET" more0 Hline Hdecode
                  Hsplit eq_refl) as (payload & more' & ->).
      rewrite Hsplit. discriminate.
    + destruct (tagged_line_has_payload last text' "OFFSET" more' Hlast
                  Hdecode' Hsplit' eq_refl) as (payload & more'' & ->).
      discriminate.
  - intros l rest w Hline Hdecode.
    rewrite (offset_unfold str_of_float). cbv zeta. cbn [rx wire].
    rewrite (get_response_line l rest _ Hline), Hdecode.
    rewrite <- !app_assoc. reflexivity.
Qed.

(** Whatever a two-field OFFSET reply carries as its payload, [offset]
    reports success: [bool] of a text is true unless the text is empty,
    and the payload holds at least the newline. *)
Theorem offset_reports_success (aruco_yaw : Q) (last text payload rest : string)
    (fuel : nat) (w : list io_event)
    (Hline : is_line last = true)
    (Hdecode : decode last = Some text)
    (Hsplit : split comma text = ["OFFSET"; payload]) :
  offset str_of_float fuel aruco_yaw (Port (last ++ rest) w)
  = Returned (Some true)
      (Port rest
         (w ++ [Tx ("1," ++ str_of_float aruco_yaw ++ nl); Rx last])%list).
Proof.
  assert (Hpayload : String.eqb payload "" = false).
  { apply String.eqb_neq.
    exact (second_field_nonempty last text "OFFSET" payload Hline Hdecode
             Hsplit eq_refl). }
  change (last ++ rest) with (join [] ++ last ++ rest).
  rewrite (offset_run str_of_float aruco_yaw [] last text payload rest []
             fuel w);
    [| constructor | exact Hline | exact Hdecode | exact Hsplit | simpl; lia].
  rewrite Hpayload. reflexivity.
Qed.

End Sensor.

Lemma get_yaw_waits_for_yaw_witness :
  get_yaw sample_float 1 (Port (join ["OFFSET,1" ++ nl] ++ "YAW,17") [])
  = Blocked (Port "YAW,17" [Tx "0,"; Rx ("OFFSET,1" ++ nl); Tx "0,"]).
Proof.
  apply (get_yaw_waits_for_yaw sample_float ["OFFSET,1" ++ nl] "YAW,17" 1 []);
    [repeat constructor | reflexivity | apply le_n].
Defined.

Lemma offset_reports_success_witness :
  offset (fun _ => "90.0") 0 90 (Port (("OFFSET,0" ++ nl) ++ "") [])
  = Returned (Some true)
      (Port "" [Tx ("1,90.0" ++ nl); Rx ("OFFSET,0" ++ nl)]).
Proof.
  apply (offset_reports_success (fun _ => "90.0") 90 ("OFFSET,0" ++ nl)
           ("OFFSET,0" ++ nl) ("0" ++ nl) "" 0 []);
    reflexivity.
Defined.

End MagnetMore.

(** ** Further properties of the translation rewards *)

Module TranslationMore.
Import Translation Translation.TwoFingerTranslation MoreSpec.
Local Open Scope R_scope.

Lemma dist2_nonneg (p q : R * R) : 0 <= dist2 p q.
Proof. unfold dist2. apply sqrt_pos. Qed.

Lemma last_cons_default {A : Type} (l : list A) :
  forall x d : A, List.last (x :: l) d = List.last l x.
Proof.
  induction l as [|a l IH]; intros x d; [reflexivity|].
  change (List.last (x :: a :: l) d) with (List.last (a :: l) d).
  rewrite (IH a d), (IH a x). reflexivity.
Qed.

(** With both poses read and a tolerance that is not negative, the reward
    of [TranslationEnvironment.reward_function] is positive exactly when
    the episode is done; it never exceeds 500, and while the episode goes
    on it is below the negated tolerance. *)
Theorem translation_reward_sign (noise_tolerance : R)
    (target_goal goal_before goal_after : state)
    (Htolerance : 0 <= noise_tolerance) :
  let result :=
    reward_function noise_tolerance target_goal (Some goal_before)
                    (Some goal_after) in
  (snd result = true <-> 0 < fst result) /\
  fst result <= 500 /\
  (snd result = false -> fst result < - noise_tolerance).
Proof.
  intros result. unfold result, reward_function.
  assert (Hd := dist2_nonneg (xy target_goal) (xy goal_after)).
  destruct (Rle_dec _ noise_tolerance) as [Hle|Hgt]; cbn [fst snd].
  - split; [split; intros _; [lra | reflexivity]|].
    split; [lra | discriminate].
  - split; [split; [discriminate | lra]|]. split; [lra|]. intros _. lra.
Qed.

Lemma translation_reward_sign_witness :
  fst (reward_function 15 (State 0 0 []) (Some (State 0 50 []))
                       (Some (State 0 30 []))) <= 500.
Proof.
  apply (translation_reward_sign 15 (State 0 0 []) (State 0 50 [])
           (State 0 30 [])).
  lra.
Defined.



End TranslationMore.

(** ** Further properties of the trainer *)

Module TrainerMore.
Import Trainer MoreSpec.

Section Reset.
Context {obs : Type}.
Variable w : reset_collaborators obs.

Lemma environment_reset_unfold (fuel k : nat) :
  environment_reset fuel w k =
  match environment_reset_result w k with
  | inl state => ([EnvironmentReset], Some (Return state))
  | inr OtherError => ([EnvironmentReset], Some (Raise OtherError))
  | inr _ =>
    if handle_gripper_error_home_result w k then
      match fuel with
      | O => (recovered_round, None)
      | S fuel' =>
        (recovered_round ++ fst (environment_reset fuel' w (S k)),
         snd (environment_reset fuel' w (S k)))
      end
    else
      (recovered_round
         ++ [Then GripperClose; Then (SaveModels "error_models");
             Then (Exit 1)],
       Some (Terminated 1))
  end.
Proof.
  destruct fuel as [|fuel]; cbn [environment_reset];
    destruct (environment_reset_result w k) as [state|[]]; try reflexivity;
    destruct (handle_gripper_error_home_result w k); try reflexivity;
    destruct (environment_reset fuel w (S k)); reflexivity.
Qed.

(** [n] failed resets, each recovered from, are followed by a fresh call of
    [environment_reset]. *)
Lemma environment_reset_rounds (n : nat) :
  forall fuel k : nat,
    n <= fuel ->
    (forall j, j < n ->
       (environment_reset_result w (k + j) = inr EnvironmentError \/
        environment_reset_result w (k + j) = inr GripperError) /\
       handle_gripper_error_home_result w (k + j) = true) ->
    environment_reset fuel w k =
    (concat (repeat recovered_round n)
       ++ fst (environment_reset (fuel - n) w (k + n)),
     snd (environment_reset (fuel - n) w (k + n))).
Proof.
  induction n as [|n IH]; intros fuel k Hfuel Hfail.
  - rewrite Nat.sub_0_r, Nat.add_0_r. cbn [repeat concat app].
    destruct (environment_reset fuel w k). reflexivity.
  - destruct fuel as [|fuel]; [lia|].
    destruct (Hfail 0 ltac:(lia)) as [Hraise Hhome].
    rewrite Nat.add_0_r in Hraise, Hhome.
    rewrite environment_reset_unfold, Hhome.
    rewrite (IH fuel (S k)) by
      (try lia; intros j Hj; replace (S k + j) with (k + S j) by lia;
       apply Hfail; lia).
    cbn [fst snd repeat concat Nat.sub].
    replace (S k + n) with (k + S n) by lia.
    rewrite <- app_assoc.
    destruct Hraise as [-> | ->]; reflexivity.
Qed.


End Reset.



Section Pacing.
Local Open Scope Q_scope.
Variable sleep : Q -> Q.
Hypothesis sleep_at_least : forall delay : Q, 0 < delay -> delay <= sleep delay.

(** When [dynamic_sleep] returns, at least [step_time_period] has passed
    since [env_start]; it never sleeps when the processing alone took
    that long. *)
Theorem dynamic_sleep_holds_period (step_time_period env_start now : Q) :
  let finish := dynamic_sleep sleep step_time_period env_start now in
  step_time_period <= finish - env_start /\
  now <= finish /\
  (step_time_period <= now - env_start -> finish = now).
Proof.
  intros finish. unfold finish, dynamic_sleep.
  set (delay := step_time_period - (now - env_start)).
  destruct (Qle_bool delay 0) eqn:Hdelay; cbn [negb].
  - apply Qle_bool_iff in Hdelay. unfold delay in Hdelay.
    split; [Lqa.lra|]. split; [Lqa.lra | reflexivity].
  - assert (Hpos : 0 < delay).
    { apply Qnot_le_lt. intros Hle. apply Qle_bool_iff in Hle. congruence. }
    assert (Hslept := sleep_at_least delay Hpos). unfold delay in *.
    split; [Lqa.lra|]. split; [Lqa.lra|]. intros Hdone. Lqa.lra.
Qed.

End Pacing.

Lemma dynamic_sleep_holds_period_witness :
  (1 # 2 <= dynamic_sleep (fun d => d) (1 # 2) 10 (41 # 4) - 10)%Q.
Proof.
  apply (dynamic_sleep_holds_period (fun d => d)
           (fun d _ => Qle_refl d) (1 # 2) 10 (41 # 4)).
Defined.

End TrainerMore.

(** ** Properties of the servo classes *)

Module ServoMore.
Import MoreSpec.

Section ObjectServo.
Local Open Scope Q_scope.
Variable step_to_angle : Z -> Q.

(** [ServoObject.get_yaw] adds one turn to a negative angle and leaves
    the others alone: an angle of the servo in [-360, 360) comes back in
    [0, 360), and an angle below -360 comes back still negative. *)
Theorem servo_get_yaw_normalised (current_position : Z)
    (Hrange : -360 <= step_to_angle current_position /\
              step_to_angle current_position < 360) :
  let yaw := ServoObject.get_yaw step_to_angle current_position in
  0 <= yaw /\ yaw < 360 /\
  (yaw == step_to_angle current_position \/
   yaw == step_to_angle current_position + 360).
Proof.
  intros yaw. unfold yaw, ServoObject.get_yaw.
  destruct (Qle_bool 0 (step_to_angle current_position)) eqn:Hsign;
    cbn [negb].
  - apply Qle_bool_iff in Hsign.
    split; [exact Hsign|]. split; [apply Hrange | left; reflexivity].
  - assert (Hneg : step_to_angle current_position < 0).
    { apply Qnot_le_lt. intros Hle. apply Qle_bool_iff in Hle. congruence. }
    split; [Lqa.lra|]. split; [Lqa.lra | right; reflexivity].
Qed.

Theorem servo_get_yaw_single_turn (current_position : Z)
    (Hbelow : step_to_angle current_position < -360) :
  ServoObject.get_yaw step_to_angle current_position < 0.
Proof.
  unfold ServoObject.get_yaw.
  destruct (Qle_bool 0 (step_to_angle current_position)) eqn:Hsign;
    cbn [negb].
  - apply Qle_bool_iff in Hsign. Lqa.lra.
  - Lqa.lra.
Qed.

End ObjectServo.

Lemma servo_get_yaw_normalised_witness :
  (0 <= ServoObject.get_yaw (fun step => inject_Z step * (360 # 4096) - 180) 0)%Q.
Proof.
  apply (servo_get_yaw_normalised
           (fun step => inject_Z step * (360 # 4096) - 180)%Q 0).
  split; [discriminate | reflexivity].
Defined.

Section Bus.
Import Servo.
Local Open Scope Z_scope.
Variable COMM_SUCCESS : Z.
Variable answer : bus_write -> Z * Z.

(** [verify_step] accepts both ends of the range when there is one,
    the steps between two accepted steps, and nothing just outside;
    with [max] below [min] it accepts nothing. *)
Theorem verify_step_range (s : servo) :
  (min s <= max s ->
   verify_step s (min s) = true /\ verify_step s (max s) = true) /\
  (forall a b c : Z,
     verify_step s a = true -> verify_step s c = true -> a <= b <= c ->
     verify_step s b = true) /\
  verify_step s (min s - 1) = false /\
  verify_step s (max s + 1) = false /\
  (max s < min s -> forall step : Z, verify_step s step = false).
Proof.
  unfold verify_step.
  split; [|split; [|split; [|split]]].
  - intros Hrange. split; apply andb_true_iff; split; apply Z.leb_le; lia.
  - intros a b c Ha Hc Hb.
    apply andb_true_iff in Ha. apply andb_true_iff in Hc.
    destruct Ha as [Ha _]. destruct Hc as [_ Hc].
    apply Z.leb_le in Ha. apply Z.leb_le in Hc.
    apply andb_true_iff. split; apply Z.leb_le; lia.
  - apply andb_false_iff. left. apply Z.leb_gt. lia.
  - apply andb_false_iff. right. apply Z.leb_gt. lia.
  - intros Hempty step. apply andb_false_iff.
    destruct (Z.leb_spec (min s) step);
      [right; apply Z.leb_gt; lia | left; reflexivity].
Qed.

(** Every register name the write methods use is in the address table,
    so none of them fails on the lookup.  [enable_torque] writes two
    bytes from the address of "torque_enable", which reaches the address
    of "led"; [disable_torque] writes one byte there and does not. *)
Theorem enable_torque_reaches_led (s : servo) :
  (exists call shown,
     enable_torque COMM_SUCCESS answer s = Some (call, shown) /\
     call = BusWrite 2 (motor_id s) 24 1 /\
     address "led" = Some 25 /\ covers call 25 = true) /\
  (exists call shown,
     disable_torque COMM_SUCCESS answer s = Some (call, shown) /\
     call = BusWrite 1 (motor_id s) 24 0 /\ covers call 25 = false) /\
  (exists call shown,
     turn_on_LED COMM_SUCCESS answer s = Some (call, shown) /\
     call = BusWrite 1 (motor_id s) 25 (LED_colour s)) /\
  (exists call shown,
     limit_torque COMM_SUCCESS answer s = Some (call, shown) /\
     call = BusWrite 2 (motor_id s) 35 (torque_limit s)) /\
  (exists call shown,
     limit_speed COMM_SUCCESS answer s = Some (call, shown) /\
     call = BusWrite 2 (motor_id s) 32 (speed_limit s)).
Proof.
  unfold enable_torque, disable_torque, turn_on_LED, limit_torque,
    limit_speed, write_register.
  change (address "torque_enable") with (Some 24).
  change (address "led") with (Some 25).
  change (address "torque_limit") with (Some 35).
  change (address "moving_speed") with (Some 32).
  repeat split;
    match goal with
    | |- context [answer ?c] => destruct (answer c) as [comm err]
    end;
    eexists; eexists; repeat split.
Qed.

End Bus.
End ServoMore.

(** ** The observation of the two-finger task *)

Module TwoFingerStateMore.
Import TwoFingerState.

Section State.
Variable pose : Type.
Variable _pose_to_state : pose -> list R.

Lemma marker_states_some (poses : gmap nat pose) (ids : list nat) :
  forall state state' : list R,
    marker_states pose _pose_to_state poses ids state = Some state' ->
    Forall (fun i => is_Some (poses !! i)) ids /\
    exists marks,
      state' = state ++ marks /\
      forall d : nat,
        (forall p, length (_pose_to_state p) = d) ->
        length marks = d * length ids.
Proof.
  induction ids as [|i ids IH]; intros state state'; cbn [marker_states].
  - intros [= <-]. split; [constructor|]. exists [].
    split; [rewrite app_nil_r; reflexivity | intros d _; cbn; lia].
  - destruct (poses !! i) as [p|] eqn:Hi; [|discriminate].
    intros Hrest. destruct (IH _ _ Hrest) as (Hall & marks & -> & Hlen).
    split; [constructor; [rewrite Hi; eauto | exact Hall]|].
    exists (_pose_to_state p ++ marks).
    split; [rewrite app_assoc; reflexivity|].
    intros d Hd. rewrite length_app, Hd, (Hlen d Hd). cbn [length]. lia.
Qed.

Lemma marker_states_none (poses : gmap nat pose) (ids : list nat) :
  forall state : list R,
    marker_states pose _pose_to_state poses ids state = None ->
    exists i, In i ids /\ poses !! i = None.
Proof.
  induction ids as [|i ids IH]; intros state; cbn [marker_states];
    [discriminate|].
  destruct (poses !! i) as [p|] eqn:Hi.
  - intros Hrest. destruct (IH _ Hrest) as (j & Hj & Hnone).
    exists j. split; [right; exact Hj | exact Hnone].
  - intros _. exists i. split; [left; reflexivity | exact Hi].
Qed.

(** The observation cannot be built (a [KeyError]) exactly when one of
    the markers 1 to [num_motors + 2] is missing from the gripper poses.
    When it is built, it ends with the goal, and if every flattened pose
    has [d] numbers its length is that of the positions, plus that of
    the velocities under velocity control, plus [d] for each of the
    [num_motors + 3] poses, plus that of the goal. *)
Theorem environment_info_to_state_shape (action_type : string)
    (num_motors : nat) (goal : list R) (info : environment_info pose) :
  (_environment_info_to_state pose _pose_to_state action_type num_motors
                              goal info = None <->
   exists i, 1 <= i <= num_motors + 2 /\
             gripper_poses pose info !! i = None) /\
  (forall state,
     _environment_info_to_state pose _pose_to_state action_type num_motors
                                goal info = Some state ->
     (exists body, state = body ++ goal) /\
     forall d : nat,
       (forall p, length (_pose_to_state p) = d) ->
       length state
       = length (positions pose info)
         + (if String.eqb action_type "velocity"
            then length (velocities pose info) else 0)
         + d * (num_motors + 3) + length goal).
Proof.
  unfold _environment_info_to_state. cbn [app].
  set (start := if String.eqb action_type "velocity"
                then positions pose info ++ velocities pose info
                else positions pose info).
  assert (Hstart : length start
                   = length (positions pose info)
                     + (if String.eqb action_type "velocity"
                        then length (velocities pose info) else 0)).
  { unfold start. destruct (String.eqb action_type "velocity");
      [apply length_app | lia]. }
  destruct (marker_states pose _pose_to_state (gripper_poses pose info)
              (seq 1 (num_motors + 2)) start) as [state'|] eqn:Hmarks.
  - destruct (marker_states_some _ _ _ _ Hmarks) as (Hall & marks & -> & Hlen).
    split.
    + split; [discriminate|]. intros (i & Hi & Hnone).
      rewrite Forall_forall in Hall.
      destruct (Hall i) as [p Hp]; [apply list_elem_of_In, in_seq; lia|].
      congruence.
    + intros state [= <-]. split; [eexists; reflexivity|].
      intros d Hd. rewrite !length_app, Hstart, Hd, (Hlen d Hd), length_seq.
      lia.
  - split; [|discriminate]. split; [|reflexivity]. intros _.
    destruct (marker_states_none _ _ _ Hmarks) as (i & Hi & Hnone).
    apply in_seq in Hi. exists i. split; [lia | exact Hnone].
Qed.

End State.
End TwoFingerStateMore.
